(** * edge-storage-usage.py: a shallow embedding and its verified properties

    The script reports the disk space taken by the Microsoft Edge data of
    one or more macOS accounts.  This development embeds its five
    functions ([format_bytes], [get_dir_size], [get_home_directory],
    [calculate_edge_storage], [main]) and proves properties of them.

    Layout:
    - Python values: exceptions, integers printed in decimal, binary64
      floats as exact dyadic numbers, [str] methods, [pathlib] paths;
    - the host interface: what the interpreter asks of the operating
      system, as an arbitrary state machine, and the monad of effects;
    - the program, function by function, in source order;
    - a concrete host: a directory tree with symbolic links, seen through
      [pathlib];
    - the notions the statements use;
    - the theorems. *)

From Stdlib Require Import ZArith Lia List String Ascii Bool QArith.
Import ListNotations.
Open Scope Z_scope.

Set Implicit Arguments.

(* ================================================================== *)
(** * Python values *)

(** ** Exceptions

    Only the classes the script can meet.  [OSError] carries its errno,
    because [pathlib] decides on it which failures of [stat] are
    answered [False] and which are raised. *)

Inductive errno : Type :=
  | ENOENT | ENOTDIR | EBADF | ELOOP
  | EACCES | EPERM | ENAMETOOLONG | EIO.

Inductive exn : Type :=
  | OSError (e : errno)
  | ValueError
  | IndexError
  | KeyError
  | RuntimeError
  | UnicodeDecodeError
  | OverflowError
  | ZeroDivisionError
  | KeyboardInterrupt
  | SystemExit (code : Z).

(** [isinstance(e, OSError)]: [PermissionError], [FileNotFoundError] and
    [NotADirectoryError] are the subclasses Python picks from the errno,
    so every [OSError e] is caught by [except (OSError, PermissionError)]. *)
Definition is_OSError (e : exn) : bool :=
  match e with OSError _ => true | _ => false end.

(** [isinstance(e, Exception)]: everything but the two classes that
    derive from [BaseException] directly. *)
Definition is_Exception (e : exn) : bool :=
  match e with KeyboardInterrupt | SystemExit _ => false | _ => true end.

(** The result of evaluating an expression: a value or a raised exception. *)
Inductive outcome (A : Type) : Type :=
  | Ok (a : A)
  | Raise (e : exn).
Arguments Ok {A} a.
Arguments Raise {A} e.

Definition obind {A B} (o : outcome A) (k : A -> outcome B) : outcome B :=
  match o with Ok a => k a | Raise e => Raise e end.

(** ** Decimal printing of integers: [str(n)] and [f"{n}"] *)

Definition digit (d : Z) : ascii := ascii_of_nat (48 + Z.to_nat d).

(** Little-endian decimal digits of [n >= 0]; the fuel bounds the number
    of digits. *)
Fixpoint digits_le (fuel : nat) (n : Z) : list Z :=
  match fuel with
  | O => []
  | S f => if n <? 10 then [n] else (n mod 10) :: digits_le f (n / 10)
  end.

Definition string_of_digits (ds : list Z) : string :=
  fold_right (fun d s => String (digit d) s) EmptyString ds.

Definition str_nat (n : Z) : string :=
  string_of_digits (rev (digits_le (S (Z.to_nat (Z.log2 n))) n)).

(** The decimal text of an integer.  From CPython 3.11 on, [str] refuses
    an integer of more than [sys.int_max_str_digits] digits (4300 unless
    set otherwise) with a [ValueError].  That limit is not modelled: it
    takes an integer of more than 4300 digits, which no count of bytes
    comes near. *)
Definition str_int (n : Z) : string :=
  if n <? 0 then String "-" (str_nat (- n)) else str_nat n.

(** ** Floats

    A finite binary64 value is [(-1)^neg * mant * 2^exp], kept exactly.
    Infinities and NaN never arise: integer division raises instead. *)

Record pyfloat : Type := mkfloat { f_neg : bool; f_mant : Z; f_exp : Z }.

(** [n / d] rounded to the nearest integer, ties to the even one
    ([0 <= n], [0 < d]). *)
Definition round_half_even (n d : Z) : Z :=
  let q := n / d in
  let r := n mod d in
  if 2 * r <? d then q
  else if d <? 2 * r then q + 1
  else if Z.even q then q else q + 1.

(** [floor (log2 (n / d))] for positive [n] and [d]. *)
Definition floor_log2_quot (n d : Z) : Z :=
  let k := Z.log2 n - Z.log2 d in
  if (if 0 <=? k then d * 2 ^ k <=? n else d <=? n * 2 ^ (- k))
  then k else k - 1.

(** [a / b] on two [int]s: the quotient correctly rounded to binary64
    (53 bits, ties to even, gradual underflow), [ZeroDivisionError] on a
    zero divisor and [OverflowError] when the rounded quotient reaches
    [2^1024]. *)
Definition int_truediv (a b : Z) : outcome pyfloat :=
  if b =? 0 then Raise ZeroDivisionError
  else
    let neg := xorb (a <? 0) (b <? 0) in
    let n := Z.abs a in
    let d := Z.abs b in
    if n =? 0 then Ok (mkfloat neg 0 0)
    else
      let e := Z.max (floor_log2_quot n d - 52) (-1074) in
      let m := if 0 <=? e then round_half_even n (d * 2 ^ e)
               else round_half_even (n * 2 ^ (- e)) d in
      if 1024 <=? Z.log2 m + e then Raise OverflowError
      else Ok (mkfloat neg m e).

(** A number of hundredths [h >= 0] written with two decimals. *)
Definition two_decimals (h : Z) : string :=
  (str_nat (h / 100) ++ "." ++
   String (digit (h / 10 mod 10)) (String (digit (h mod 10)) ""))%string.

(** [f"{x:.2f}"]: the exact value of the float rounded to hundredths,
    ties to even, the sign first. *)
Definition format_2f (x : pyfloat) : string :=
  let h := if 0 <=? f_exp x then f_mant x * 100 * 2 ^ f_exp x
           else round_half_even (f_mant x * 100) (2 ^ (- f_exp x)) in
  ((if f_neg x then "-" else "") ++ two_decimals h)%string.

(** ** Strings

    A Python [str] is kept as its UTF-8 bytes.  Column widths count
    bytes, which is the number of characters for the ASCII text the
    script pads. *)

Open Scope string_scope.

Fixpoint repeat_string (s : string) (n : nat) : string :=
  match n with O => "" | S k => s ++ repeat_string s k end.

Definition spaces (n : nat) : string := repeat_string " " n.

(** [f"{s:<w}"] and [f"{s:>w}"]: pad with spaces, never truncate. *)
Definition ljust (s : string) (w : nat) : string :=
  s ++ spaces (w - String.length s).
Definition rjust (s : string) (w : nat) : string :=
  spaces (w - String.length s) ++ s.

Fixpoint rev_string (s : string) : string :=
  match s with "" => "" | String c r => rev_string r ++ String c "" end.

Fixpoint drop (n : nat) (s : string) : string :=
  match n, s with
  | O, _ => s
  | S k, String _ r => drop k r
  | S _, "" => ""
  end.

(** Byte length of the white-space character [s] starts with, 0 when it
    starts with none.  White space is what [str.strip()] removes:
    U+0009..000D, U+001C..001F, U+0020, U+0085, U+00A0, U+1680,
    U+2000..200A, U+2028, U+2029, U+202F, U+205F, U+3000. *)
Definition ws_len (s : string) : nat :=
  match s with
  | "" => O
  | String c r =>
      let n := nat_of_ascii c in
      if ((9 <=? n) && (n <=? 13) || (28 <=? n) && (n <=? 32))%nat then 1%nat
      else
        match r with
        | "" => O
        | String c2 r2 =>
            let n2 := nat_of_ascii c2 in
            if ((n =? 194) && ((n2 =? 133) || (n2 =? 160)))%nat then 2%nat
            else
              match r2 with
              | "" => O
              | String c3 _ =>
                  let n3 := nat_of_ascii c3 in
                  if ((n =? 225) && (n2 =? 154) && (n3 =? 128)
                      || (n =? 226) && (n2 =? 128)
                         && ((128 <=? n3) && (n3 <=? 138) || (n3 =? 168)
                             || (n3 =? 169) || (n3 =? 175))
                      || (n =? 226) && (n2 =? 129) && (n3 =? 159)
                      || (n =? 227) && (n2 =? 128) && (n3 =? 128))%nat
                  then 3%nat else O
              end
        end
  end.

(** The same test on a reversed string, for the right end. *)
Definition ws_len_rev (s : string) : nat :=
  match s with
  | "" => O
  | String c r =>
      if (ws_len (String c "") =? 1)%nat then 1%nat
      else
        match r with
        | "" => O
        | String c2 r2 =>
            if (ws_len (String c2 (String c "")) =? 2)%nat then 2%nat
            else
              match r2 with
              | "" => O
              | String c3 _ =>
                  if (ws_len (String c3 (String c2 (String c ""))) =? 3)%nat
                  then 3%nat else O
              end
        end
  end.

Fixpoint strip_with (len : string -> nat) (fuel : nat) (s : string) : string :=
  match fuel with
  | O => s
  | S f => match len s with O => s | n => strip_with len f (drop n s) end
  end.

Definition lstrip (s : string) : string := strip_with ws_len (String.length s) s.
Definition rstrip (s : string) : string :=
  rev_string (strip_with ws_len_rev (String.length s) (rev_string s)).
Definition strip (s : string) : string := rstrip (lstrip s).

(** [s.splitlines()]: lines end at LF, CR, CRLF, VT, FF, FS, GS, RS, NEL
    (U+0085), LS (U+2028) and PS (U+2029); a final line without
    terminator is kept, an empty tail is not. *)
Fixpoint splitlines_from (s : string) (line : string) : list string :=
  match s with
  | "" => match line with "" => [] | _ => [line] end
  | String c r =>
      let n := nat_of_ascii c in
      if (n =? 13)%nat then
        match r with
        | String "010" r2 => line :: splitlines_from r2 ""
        | _ => line :: splitlines_from r ""
        end
      else if ((n =? 10) || (n =? 11) || (n =? 12)
               || (28 <=? n) && (n <=? 30))%nat then
        line :: splitlines_from r ""
      else
        match r with
        | String c2 r2 =>
            if ((n =? 194) && (nat_of_ascii c2 =? 133))%nat then
              line :: splitlines_from r2 ""
            else
              match r2 with
              | String c3 r3 =>
                  if ((n =? 226) && (nat_of_ascii c2 =? 128)
                      && ((nat_of_ascii c3 =? 168) || (nat_of_ascii c3 =? 169)))%nat
                  then line :: splitlines_from r3 ""
                  else splitlines_from r (line ++ String c "")
              | "" => splitlines_from r (line ++ String c "")
              end
        | "" => splitlines_from r (line ++ String c "")
        end
  end.

Definition splitlines (s : string) : list string := splitlines_from s "".

(** What follows the first occurrence of [key] in [s]. *)
Fixpoint after_first (key s : string) : option string :=
  if String.prefix key s then Some (drop (String.length key) s)
  else match s with "" => None | String _ r => after_first key r end.

(** [key in s] *)
Definition contains (key s : string) : bool :=
  match after_first key s with Some _ => true | None => false end.

(** [s.split(key, 1)[1]] *)
Definition split_once_snd (key s : string) : outcome string :=
  match after_first key s with Some r => Ok r | None => Raise IndexError end.

(** [s.split(sep)] for a one-character separator. *)
Fixpoint split_on (sep : ascii) (s : string) (cur : string) : list string :=
  match s with
  | "" => [cur]
  | String c r =>
      if Ascii.eqb c sep then cur :: split_on sep r ""
      else split_on sep r (cur ++ String c "")
  end.

Fixpoint join (sep : string) (l : list string) : string :=
  match l with
  | [] => ""
  | [x] => x
  | x :: r => x ++ sep ++ join sep r
  end.

(** ** Paths ([pathlib.PurePosixPath])

    A path is its root ([""], ["/"] or ["//"]) and its components.
    Parsing drops empty and ["."] components and keeps [".."]. *)

Record Path : Type := mkPath { root : string; parts : list string }.

Definition path_parts (s : string) : list string :=
  filter (fun c => negb (String.eqb c "" || String.eqb c "."))
         (split_on "/" s "").

Definition path_root (s : string) : string :=
  match s with
  | String "/" (String "/" (String "/" _)) => "/"
  | String "/" (String "/" _) => "//"
  | String "/" _ => "/"
  | _ => ""
  end.

(** [Path(s)] *)
Definition path_of_string (s : string) : Path :=
  mkPath (path_root s) (path_parts s).

(** [p / s] *)
Definition joinpath (p : Path) (s : string) : Path :=
  let q := path_of_string s in
  if String.eqb (root q) "" then mkPath (root p) (parts p ++ parts q)
  else q.

(** [str(p)] *)
Definition path_str (p : Path) : string :=
  match root p, parts p with
  | "", [] => "."
  | r, ps => r ++ join "/" ps
  end.

Close Scope string_scope.

(* ================================================================== *)
(** * The program: constants and [format_bytes] *)

Definition KB : Z := 1024.
Definition MB : Z := 1024 * 1024.
Definition GB : Z := 1024 * 1024 * 1024.

Definition LABEL_WIDTH : nat := 30.
Definition SIZE_WIDTH : nat := 15.

Definition format_bytes (bytes_size : Z) : outcome string :=
  if bytes_size <? KB then
    Ok (str_int bytes_size ++ "B")%string
  else if bytes_size <? MB then
    obind (int_truediv bytes_size KB) (fun x => Ok (format_2f x ++ "KB")%string)
  else if bytes_size <? GB then
    obind (int_truediv bytes_size MB) (fun x => Ok (format_2f x ++ "MB")%string)
  else
    obind (int_truediv bytes_size GB) (fun x => Ok (format_2f x ++ "GB")%string).

(* ================================================================== *)
(** * The host

    Everything the script asks of the world outside the interpreter.  The
    host is an arbitrary state machine: the answer to a call may depend
    on every earlier call, so files may appear, vanish or change between
    two calls of the script.

    The three [pathlib] predicates may fail with an errno: up to Python
    3.13 [Path.exists], [Path.is_dir] and [Path.is_file] answer [False]
    for [ENOENT], [ENOTDIR], [EBADF] and [ELOOP] and raise every other
    [OSError] of the underlying [stat]; from Python 3.14 on they never
    raise.  A host of the second kind simply never answers [Failed].

    The two questions about the user may fail as well.
    [getpass.getuser()] reads the login variables of the environment
    and then the password database, and raises ([KeyError], [OSError]
    from Python 3.13 on) when the user id has no entry there;
    [Path.home()] raises [RuntimeError] when neither [HOME] nor the
    password database gives a home directory. *)

Inductive os_result (A : Type) : Type :=
  | Done (a : A)
  | Failed (e : errno).
Arguments Done {A} a.
Arguments Failed {A} e.

(** [subprocess.CompletedProcess], the two attributes the script reads. *)
Record completed : Type := mkCompleted { returncode : Z; stdout : string }.

Class Host : Type := {
  host_state : Type;
  (** [getpass.getuser()] *)
  h_getuser : host_state -> outcome string * host_state;
  (** [Path.home()] *)
  h_home : host_state -> outcome Path * host_state;
  (** [platform.system()] *)
  h_system : host_state -> string * host_state;
  (** [p.exists()], [p.is_dir()], [p.is_file()] *)
  h_exists : Path -> host_state -> os_result bool * host_state;
  h_is_dir : Path -> host_state -> os_result bool * host_state;
  h_is_file : Path -> host_state -> os_result bool * host_state;
  (** [p.stat().st_size] *)
  h_stat_size : Path -> host_state -> os_result Z * host_state;
  (** [p.rglob('*')] run to its end: the paths it yields, and the error
      that ends it when it does not end by itself. *)
  h_rglob : Path -> host_state -> (list Path * option errno) * host_state;
  (** [subprocess.run(argv, capture_output=True, text=True, check=False)] *)
  h_run : list string -> host_state -> outcome completed * host_state
}.

(** What an observer of the process sees: the calls made to the host and
    the lines printed, in order. *)
Inductive call : Type :=
  | c_getuser
  | c_home
  | c_system
  | c_exists (p : Path)
  | c_is_dir (p : Path)
  | c_is_file (p : Path)
  | c_stat (p : Path)
  | c_rglob (p : Path)
  | c_run (argv : list string).

Inductive event : Type :=
  | Called (c : call)
  | Printed (line : string).

(** The lines written to standard output. *)
Fixpoint printed (l : list event) : list string :=
  match l with
  | [] => []
  | Printed s :: r => s :: printed r
  | Called _ :: r => printed r
  end.

Section Program.

Context {H : Host}.

(** ** The monad of effects: host state, exceptions, trace *)

Definition M (A : Type) : Type :=
  host_state -> outcome A * host_state * list event.

Definition ret {A} (a : A) : M A := fun s => (Ok a, s, []).

Definition raise {A} (e : exn) : M A := fun s => (Raise e, s, []).

Definition bind {A B} (m : M A) (k : A -> M B) : M B :=
  fun s =>
    match m s with
    | (Ok a, s1, l1) =>
        match k a s1 with (r, s2, l2) => (r, s2, l1 ++ l2) end
    | (Raise e, s1, l1) => (Raise e, s1, l1)
    end.

Notation "x <- m ;; k" := (bind m (fun x => k))
  (at level 61, m at next level, right associativity).
Notation "' pat <- m ;; k" := (bind m (fun x => match x with pat => k end))
  (at level 61, pat pattern, m at next level, right associativity).
Notation "m ;;; k" := (bind m (fun _ => k))
  (at level 61, right associativity).

(** A pure computation that may raise. *)
Definition lift {A} (o : outcome A) : M A := fun s => (o, s, []).

(** [try: m  except <classes>: handler] *)
Definition try_except {A} (m : M A) (classes : exn -> bool) (handler : M A)
  : M A :=
  fun s =>
    match m s with
    | (Raise e, s1, l1) =>
        if classes e then
          match handler s1 with (r, s2, l2) => (r, s2, l1 ++ l2) end
        else (Raise e, s1, l1)
    | r => r
    end.

(** Runs [m] and hands its outcome over as a value. *)
Definition attempt {A} (m : M A) : M (outcome A) :=
  fun s => match m s with (r, s1, l1) => (Ok r, s1, l1) end.

Definition ask {A} (c : call) (f : host_state -> A * host_state) : M A :=
  fun s => match f s with (a, s1) => (Ok a, s1, [Called c]) end.

(** A call that answers or raises. *)
Definition ask_py {A} (c : call) (f : host_state -> outcome A * host_state)
  : M A :=
  fun s => match f s with (r, s1) => (r, s1, [Called c]) end.

Definition ask_os {A} (c : call) (f : host_state -> os_result A * host_state)
  : M A :=
  fun s =>
    match f s with
    | (Done a, s1) => (Ok a, s1, [Called c])
    | (Failed e, s1) => (Raise (OSError e), s1, [Called c])
    end.

Definition getuser : M string := ask_py c_getuser h_getuser.
Definition Path_home : M Path := ask_py c_home h_home.
Definition platform_system : M string := ask c_system h_system.
Definition exists_ (p : Path) : M bool := ask_os (c_exists p) (h_exists p).
Definition is_dir (p : Path) : M bool := ask_os (c_is_dir p) (h_is_dir p).
Definition is_file (p : Path) : M bool := ask_os (c_is_file p) (h_is_file p).
Definition stat_size (p : Path) : M Z := ask_os (c_stat p) (h_stat_size p).
Definition rglob (p : Path) : M (list Path * option errno) :=
  ask (c_rglob p) (h_rglob p).
Definition subprocess_run (argv : list string) : M completed :=
  fun s =>
    match h_run argv s with (r, s1) => (r, s1, [Called (c_run argv)]) end.

Definition print (line : string) : M unit := fun s => (Ok tt, s, [Printed line]).

(** [a and b] on two checks: [b] is only made when [a] holds. *)
Definition and_then (a b : M bool) : M bool :=
  x <- a ;; if x then b else ret false.

(** ** [get_dir_size] *)

(** The body of [for item in path.rglob('*')], from the items still to
    come.  The result pairs [total_size] as the loop leaves it with the
    exception that left it, if any: the variable outlives the [try]. *)
Fixpoint walk_loop (items : list Path) (stop : option errno) (total_size : Z)
  : M (Z * option exn) :=
  match items with
  | [] => ret (total_size, option_map OSError stop)
  | item :: rest =>
      f <- attempt (is_file item) ;;
      match f with
      | Raise e => ret (total_size, Some e)
      | Ok false => walk_loop rest stop total_size
      | Ok true =>
          r <- attempt (stat_size item) ;;
          match r with
          | Ok st_size => walk_loop rest stop (total_size + st_size)
          | Raise e =>
              if is_OSError e then walk_loop rest stop total_size
              else ret (total_size, Some e)
          end
      end
  end.

Definition get_dir_size (path : Path) : M Z :=
  ex <- exists_ path ;;
  if negb ex then ret 0
  else
    f <- is_file path ;;
    if f then
      try_except (stat_size path) is_OSError (ret 0)
    else
      ' (items, stop) <- rglob path ;;
      ' (total_size, escaped) <- walk_loop items stop 0 ;;
      match escaped with
      | Some e => if is_OSError e then ret total_size else raise e
      | None => ret total_size
      end.

(** ** [get_home_directory] *)

Definition NFS_HOME_DIR_KEY : string := "NFSHomeDirectory:".

(** The [for line in result.stdout.splitlines()] loop; [Some p] is the
    [return home_dir] inside it. *)
Fixpoint scan_lines (lines : list string) : M (option Path) :=
  match lines with
  | [] => ret None
  | line :: rest =>
      if contains NFS_HOME_DIR_KEY line then
        path_str <- lift (split_once_snd NFS_HOME_DIR_KEY line) ;;
        let home_dir := path_of_string (strip path_str) in
        ok <- and_then (exists_ home_dir) (is_dir home_dir) ;;
        if ok then ret (Some home_dir) else scan_lines rest
      else scan_lines rest
  end.

Definition dscl_argv (username : string) : list string :=
  ["dscl"; "."; "-read"; ("/Users/" ++ username)%string; "NFSHomeDirectory"]%string.

Definition get_home_directory (username : string) : M (option Path) :=
  current_user <- getuser ;;
  if String.eqb username current_user then
    h <- Path_home ;; ret (Some h)
  else
    let home_dir := path_of_string ("/Users/" ++ username) in
    ok <- and_then (exists_ home_dir) (is_dir home_dir) ;;
    if ok then ret (Some home_dir)
    else
      try_except
        (result <- subprocess_run (dscl_argv username) ;;
         if returncode result =? 0 then scan_lines (splitlines (stdout result))
         else ret None)
        is_Exception
        (ret None).

(** ** [calculate_edge_storage] *)

Definition ESC : string := String "027" "".
Definition LF : string := String "010" "".

Definition RED : string := (ESC ++ "[0;31m")%string.
Definition GREEN : string := (ESC ++ "[0;32m")%string.
Definition YELLOW : string := (ESC ++ "[1;33m")%string.
Definition BLUE : string := (ESC ++ "[0;34m")%string.
Definition NC : string := (ESC ++ "[0m")%string.

(** The three rules of the report: sixty U+2501, sixty-two U+2500 and
    sixty U+2550. *)
Definition heavy_rule : string := repeat_string "━" 60.
Definition light_rule : string := repeat_string "─" 62.
Definition double_rule : string := repeat_string "═" 60.

Definition not_found_line (username : string) : string :=
  (RED ++ "✗ User '" ++ username
   ++ "' not found or home directory doesn't exist" ++ NC)%string.

Definition user_line (username : string) : string :=
  (GREEN ++ "User: " ++ username ++ NC)%string.

Definition category_line (label size_text : string) : string :=
  ("  " ++ ljust (label ++ ":") LABEL_WIDTH ++ " "
   ++ rjust size_text SIZE_WIDTH)%string.

Definition no_data_line (username : string) : string :=
  ("  " ++ YELLOW ++ "⚠ No Microsoft Edge data found for user '"
   ++ username ++ "'" ++ NC)%string.

Definition total_line (size_text : string) : string :=
  ("  " ++ GREEN ++ ljust "TOTAL:" LABEL_WIDTH ++ " "
   ++ rjust size_text SIZE_WIDTH ++ NC)%string.

(** The [edge_dirs] dictionary, in insertion order. *)
Definition edge_dirs (home_dir : Path) : list (string * Path) :=
  [ ("Application Support",
     joinpath home_dir "Library/Application Support/Microsoft Edge");
    ("Caches",
     joinpath home_dir "Library/Caches/Microsoft Edge");
    ("Cookies",
     joinpath home_dir "Library/Cookies/com.microsoft.edgemac.binarycookies");
    ("HTTPStorages",
     joinpath home_dir "Library/HTTPStorages/com.microsoft.edgemac");
    ("Preferences",
     joinpath home_dir "Library/Preferences/com.microsoft.edgemac.plist");
    ("Saved Application State",
     joinpath home_dir
       "Library/Saved Application State/com.microsoft.edgemac.savedState");
    ("WebKit",
     joinpath home_dir "Library/WebKit/com.microsoft.edgemac") ]%string.

(** [for label, path in edge_dirs.items()], carrying the two variables
    the loop updates. *)
Fixpoint categories_loop (dirs : list (string * Path))
    (total_size : Z) (found_any : bool) : M (Z * bool) :=
  match dirs with
  | [] => ret (total_size, found_any)
  | (label, path) :: rest =>
      ex <- exists_ path ;;
      if ex then
        size <- get_dir_size path ;;
        if 0 <? size then
          text <- lift (format_bytes size) ;;
          print (category_line label text) ;;;
          categories_loop rest (total_size + size) true
        else categories_loop rest total_size true
      else categories_loop rest total_size found_any
  end.

Definition calculate_edge_storage (username : string) : M bool :=
  home_dir <- get_home_directory username ;;
  match home_dir with
  | None => print (not_found_line username) ;;; ret false
  | Some home_dir =>
      print (LF ++ BLUE ++ heavy_rule ++ NC)%string ;;;
      print (user_line username) ;;;
      print (BLUE ++ heavy_rule ++ NC)%string ;;;
      ' (total_size, found_any) <- categories_loop (edge_dirs home_dir) 0 false ;;
      if negb found_any then
        print (no_data_line username) ;;; ret true
      else
        print (BLUE ++ light_rule ++ NC)%string ;;;
        text <- lift (format_bytes total_size) ;;
        print (total_line text) ;;;
        print (BLUE ++ heavy_rule ++ NC)%string ;;;
        ret true
  end.

(** ** [main] *)

(** [for username in usernames: calculate_edge_storage(username)] *)
Fixpoint for_each_user (usernames : list string) : M unit :=
  match usernames with
  | [] => ret tt
  | username :: rest =>
      calculate_edge_storage username ;;; for_each_user rest
  end.

(** [argv] is [sys.argv], the script's own name first. *)
Definition main (argv : list string) : M unit :=
  system <- platform_system ;;
  if negb (String.eqb system "Darwin") then
    print (RED ++ "Error: This script is designed for macOS only" ++ NC)%string ;;;
    raise (SystemExit 1)
  else
    print (GREEN ++ "╔" ++ double_rule ++ "╗" ++ NC)%string ;;;
    print (GREEN
           ++ "║     Microsoft Edge Storage Usage Calculator for macOS     ║"
           ++ NC)%string ;;;
    print (GREEN ++ "╚" ++ double_rule ++ "╝" ++ NC)%string ;;;
    usernames <- (if (List.length argv <=? 1)%nat
                  then u <- getuser ;; ret [u]
                  else ret (tl argv)) ;;
    for_each_user usernames ;;;
    print "".

End Program.

(** The exit status of the interpreter running [main()] as the module
    body: 0 when it returns, the code of a [SystemExit], and 1 after the
    traceback of any other exception. *)
Definition exit_status (r : outcome unit) : Z :=
  match r with
  | Ok _ => 0
  | Raise (SystemExit code) => code
  | Raise _ => 1
  end.

(* ================================================================== *)
(** * A concrete host: a directory tree seen through [pathlib]

    One host among all those the interface allows, used to run the
    script on explicit inputs.  The tree does not change while the script
    runs.  Directories carry one permission bit for the invoking user
    (search and list); symbolic links are followed the way [stat] does,
    at most [MAXSYMLINKS] of them in one resolution; a component longer
    than [NAME_MAX] bytes is refused.  Relative paths are resolved from
    the root directory. *)

Unset Elimination Schemes.
Inductive node : Type :=
  | File (st_size : Z)
  | Dir (access : bool) (entries : list (string * node))
  | Symlink (target : Path)
  | Special.
Set Elimination Schemes.

Definition NAME_MAX : nat := 255.
Definition MAXSYMLINKS : nat := 32.

(** [st_size] of a directory: not zero, and never counted by the script. *)
Definition DIR_ST_SIZE : Z := 4096.

Fixpoint lookup_entry (name : string) (es : list (string * node)) : option node :=
  match es with
  | [] => None
  | (n, nd) :: r => if String.eqb name n then Some nd else lookup_entry name r
  end.

(** Path resolution.  [cur] is the directory reached so far, on top of
    its ancestors up to the root; the answer is the node reached, on top
    of its ancestors. *)
Fixpoint resolve (links : nat) (fs : node) (cur : list node)
    (comps : list string) {struct links} : os_result (list node) :=
  (fix go (cur : list node) (comps : list string) {struct comps}
     : os_result (list node) :=
     match comps with
     | [] => Done cur
     | c :: rest =>
         match cur with
         | Dir access es :: up =>
             if negb access then Failed EACCES
             else if String.eqb c ".." then
               go (match up with [] => cur | _ => up end) rest
             else if (NAME_MAX <? String.length c)%nat then Failed ENAMETOOLONG
             else
               match lookup_entry c es with
               | None => Failed ENOENT
               | Some (Symlink t) =>
                   match links with
                   | O => Failed ELOOP
                   | S k =>
                       resolve k fs
                         (if String.eqb (root t) "" then cur else [fs])
                         (parts t ++ rest)
                   end
               | Some nd => go (nd :: cur) rest
               end
         | _ => Failed ENOTDIR
         end
     end) cur comps.

Definition child (p : Path) (name : string) : Path :=
  mkPath (root p) (parts p ++ [name]).

(** What [rglob('*')] yields below a directory: its entries, then what
    each real, listable subdirectory yields.  Links to directories are
    yielded and not entered. *)
Fixpoint subtree_paths (p : Path) (nd : node) : list Path :=
  match nd with
  | Dir true es =>
      map (fun e => child p (fst e)) es
      ++ flat_map (fun e => match e with
                            | (name, sub) => subtree_paths (child p name) sub
                            end) es
  | _ => []
  end.

Record machine : Type := mkMachine {
  m_fs : node;
  m_user : outcome string;
  m_home : outcome Path;
  m_system : string;
  m_dscl : list string -> outcome completed;
  (** [true] for the [pathlib] of Python 3.14 and later, whose
      predicates and globbing swallow every [OSError]. *)
  m_lenient : bool
}.

Definition t_stat (m : machine) (p : Path) : os_result (list node) :=
  resolve MAXSYMLINKS (m_fs m) [m_fs m] (parts p).

(** The errnos [pathlib._ignore_error] accepts. *)
Definition ignored_errno (e : errno) : bool :=
  match e with ENOENT | ENOTDIR | EBADF | ELOOP => true | _ => false end.

(** The errnos Python raises as [PermissionError]. *)
Definition permission_errno (e : errno) : bool :=
  match e with EACCES | EPERM => true | _ => false end.

Definition t_predicate (test : node -> bool) (m : machine) (p : Path)
  : os_result bool :=
  match t_stat m p with
  | Done (nd :: _) => Done (test nd)
  | Done [] => Done false
  | Failed e =>
      if m_lenient m || ignored_errno e then Done false else Failed e
  end.

Definition t_exists : machine -> Path -> os_result bool :=
  t_predicate (fun _ => true).
Definition t_is_dir : machine -> Path -> os_result bool :=
  t_predicate (fun nd => match nd with Dir _ _ => true | _ => false end).
Definition t_is_file : machine -> Path -> os_result bool :=
  t_predicate (fun nd => match nd with File _ => true | _ => false end).

Definition t_stat_size (m : machine) (p : Path) : os_result Z :=
  match t_stat m p with
  | Done (File n :: _) => Done n
  | Done (Dir _ _ :: _) => Done DIR_ST_SIZE
  | Done _ => Done 0
  | Failed e => Failed e
  end.

Definition t_rglob (m : machine) (p : Path) : list Path * option errno :=
  match t_stat m p with
  | Done (Dir a es :: _) => (subtree_paths p (Dir a es), None)
  | Done _ => ([], if m_lenient m then None else Some ENOTDIR)
  | Failed e =>
      ([], if m_lenient m || permission_errno e then None else Some e)
  end.

#[export] Instance tree_host (m : machine) : Host := {|
  host_state := unit;
  h_getuser := fun s => (m_user m, s);
  h_home := fun s => (m_home m, s);
  h_system := fun s => (m_system m, s);
  h_exists := fun p s => (t_exists m p, s);
  h_is_dir := fun p s => (t_is_dir m p, s);
  h_is_file := fun p s => (t_is_file m p, s);
  h_stat_size := fun p s => (t_stat_size m p, s);
  h_rglob := fun p s => (t_rglob m p, s);
  h_run := fun argv s => (m_dscl m argv, s)
|}.

(** Running a computation of the script on a machine: its outcome and
    its trace. *)
Definition run_on {A} (m : machine) (c : @M (tree_host m) A)
  : outcome A * list event :=
  match c tt with (r, _, l) => (r, l) end.
Arguments run_on {A} m c.

(** ** A sample machine

    Two accounts.  [alice] runs the script; her only Edge data is an
    empty cache directory.  [bob]'s [Library] is closed to her.  [carol]
    is only known to the directory service, with her home in
    [/Volumes/carol]; the service answers for [erin] without the field
    and for [frank] with a directory that is gone, and knows nobody
    else. *)

Open Scope string_scope.

Definition long_name : string := repeat_string "a" 300.

Definition sample_fs : node :=
  Dir true
    [ ("Users", Dir true
        [ ("alice", Dir true
            [ ("Library", Dir true
                [ ("Caches", Dir true [ ("Microsoft Edge", Dir true []) ]) ]) ]);
          ("bob", Dir true
            [ ("Library", Dir false
                [ ("Caches", Dir true
                    [ ("Microsoft Edge", Dir true [ ("data", File 2048) ]) ]) ]) ]) ]);
      ("Volumes", Dir true
        [ ("carol", Dir true
            [ ("Library", Dir true
                [ ("Preferences", Dir true
                    [ ("com.microsoft.edgemac.plist", File 500) ]);
                  ("Caches", Dir true
                    [ ("Microsoft Edge", Dir true
                        [ ("index", File 1024);
                          ("blobs", Dir true [ ("b0", File 1536); ("b1", File 0) ]);
                          ("sock", Special) ]) ]) ]) ]) ]);
      ("tmp", Dir true
        [ ("big", File 5000);
          ("links", Dir true [ ("to_big", Symlink (path_of_string "/tmp/big")) ]) ]) ].

Definition sample_dscl (argv : list string) : outcome completed :=
  if list_eq_dec string_dec argv (dscl_argv "carol") then
    Ok (mkCompleted 0 ("NFSHomeDirectory: /Volumes/carol" ++ LF))
  else if list_eq_dec string_dec argv (dscl_argv "erin") then
    Ok (mkCompleted 0 ("No such key: NFSHomeDirectory" ++ LF))
  else if list_eq_dec string_dec argv (dscl_argv "frank") then
    Ok (mkCompleted 0 ("NFSHomeDirectory: /Volumes/gone" ++ LF))
  else Ok (mkCompleted 56 "").

Definition sample : machine :=
  mkMachine sample_fs (Ok "alice") (Ok (path_of_string "/Users/alice")) "Darwin"
            sample_dscl false.

(** The same machine under Python 3.14. *)
Definition sample_lenient : machine :=
  mkMachine sample_fs (Ok "alice") (Ok (path_of_string "/Users/alice")) "Darwin"
            sample_dscl true.

(** The same machine without the [dscl] binary. *)
Definition sample_no_dscl : machine :=
  mkMachine sample_fs (Ok "alice") (Ok (path_of_string "/Users/alice")) "Darwin"
            (fun _ => Raise (OSError ENOENT)) false.

(** The same machine for a process of alice's that has no [HOME] in its
    environment and whose user id is missing from the password
    database: [LOGNAME] still gives her name, and no home directory can
    be determined. *)
Definition sample_no_home : machine :=
  mkMachine sample_fs (Ok "alice") (Raise RuntimeError) "Darwin"
            sample_dscl false.

(** A directory service that knows [john], whose home directory has a
    blank in its name: [dscl] then writes the value on a line of its
    own, after one blank. *)
Definition blank_name_dscl (argv : list string) : outcome completed :=
  if list_eq_dec string_dec argv (dscl_argv "john") then
    Ok (mkCompleted 0 ("NFSHomeDirectory:" ++ LF
                       ++ " /Volumes/Data Disk/john" ++ LF))
  else Ok (mkCompleted 56 "").

Definition sample_blank_name : machine :=
  mkMachine sample_fs (Ok "alice") (Ok (path_of_string "/Users/alice")) "Darwin"
            blank_name_dscl false.

Close Scope string_scope.

(* ================================================================== *)
(** * Notions used by the statements *)

(** ** Rendered sizes *)

(** [round53 b] is the integer a float holds for [b > 0]: [b] itself up
    to 53 bits, and [b] rounded to its 53 leading bits beyond. *)
Definition round53 (b : Z) : Z :=
  let s := Z.log2 b - 52 in
  if s <=? 0 then b else round_half_even b (2 ^ s) * 2 ^ s.

(** The mantissa of [b / 2^k] for [b >= 2^k]. *)
Definition mantissa (b : Z) : Z :=
  let s := Z.log2 b - 52 in
  if s <=? 0 then b * 2 ^ (- s) else round_half_even b (2 ^ s).

Definition is_digit (c : ascii) : bool :=
  let n := nat_of_ascii c in ((48 <=? n) && (n <=? 57))%nat.

Definition digit_value (c : ascii) : Z := Z.of_nat (nat_of_ascii c) - 48.

(** Reads the decimal digits [s] starts with, on top of [acc]; answers
    the number read, how many digits it took, and the rest. *)
Fixpoint scan_digits (s : string) (acc : Z) (cnt : nat) : Z * nat * string :=
  match s with
  | String c r =>
      if is_digit c then scan_digits r (10 * acc + digit_value c) (S cnt)
      else (acc, cnt, s)
  | EmptyString => (acc, cnt, EmptyString)
  end.

(** A rendered size: the integer its digits spell (the decimal point
    left out), the number of digits after the point, and the unit. *)
Record reading : Type := mkReading {
  r_number : Z;
  r_places : nat;
  r_unit : string
}.

(** The number a reading denotes. *)
Definition reading_value (r : reading) : Q :=
  r_number r # Z.to_pos (10 ^ Z.of_nat (r_places r)).

Definition parse_body (neg : bool) (body : string) : option reading :=
  let sign := fun n : Z => if neg then - n else n in
  match scan_digits body 0 0 with
  | (_, O, _) => None
  | (ip, S _, String c r) =>
      if Ascii.eqb c "." then
        match scan_digits r ip 0 with
        | (_, O, _) => None
        | (n, S k, u) => Some (mkReading (sign n) (S k) u)
        end
      else Some (mkReading (sign ip) 0 (String c r))
  | (ip, S _, EmptyString) => Some (mkReading (sign ip) 0 EmptyString)
  end.

Definition parse_size (s : string) : option reading :=
  match s with
  | String c r => if Ascii.eqb c "-" then parse_body true r else parse_body false s
  | EmptyString => None
  end.

(** What [format_bytes b] shows, read back; [None] when it raises. *)
Definition shown (b : Z) : option reading :=
  match format_bytes b with
  | Ok s => parse_size s
  | Raise _ => None
  end.

(** The unit bracket of a byte count: 0 for bytes, 1 for KB, 2 for MB,
    3 for GB. *)
Definition bracket (b : Z) : nat :=
  if b <? KB then 0%nat
  else if b <? MB then 1%nat
  else if b <? GB then 2%nat
  else 3%nat.

Definition is_decimal_digit (d : Z) : Prop := 0 <= d <= 9.

(** A unit is a suffix no digit scan enters. *)
Definition is_unit (u : string) : Prop :=
  match u with
  | String c _ => is_digit c = false /\ Ascii.eqb c "." = false
  | EmptyString => True
  end.

(** ** The lines of a report *)

(** The section a report opens with. *)
Definition section_head (username : string) : list string :=
  [(LF ++ BLUE ++ heavy_rule ++ NC)%string;
   user_line username;
   (BLUE ++ heavy_rule ++ NC)%string].

(** The lines that close a report with the total [text]. *)
Definition section_total (text : string) : list string :=
  [(BLUE ++ light_rule ++ NC)%string;
   total_line text;
   (BLUE ++ heavy_rule ++ NC)%string].

Definition banner : list string :=
  [(GREEN ++ "╔" ++ double_rule ++ "╗" ++ NC)%string;
   (GREEN ++ "║     Microsoft Edge Storage Usage Calculator for macOS     ║"
    ++ NC)%string;
   (GREEN ++ "╚" ++ double_rule ++ "╝" ++ NC)%string].

(** ** Directory trees *)

Definition zsum (l : list Z) : Z := fold_right Z.add 0 l.

(** The size of the regular file a path leads to, following links; 0
    when it leads to anything else or nowhere. *)
Definition link_size (m : machine) (q : Path) : Z :=
  match t_stat m q with
  | Done (File n :: _) => n
  | _ => 0
  end.

(** What one directory entry adds by itself. *)
Definition entry_size (m : machine) (q : Path) (nd : node) : Z :=
  match nd with
  | File n => n
  | Symlink _ => link_size m q
  | _ => 0
  end.

(** The size of the tree below a directory at path [p]: every regular
    file counts with its size and every link to a regular file with the
    size of that file, in this directory and in the listable real
    directories below it. *)
Fixpoint tree_size (m : machine) (p : Path) (nd : node) : Z :=
  match nd with
  | Dir true es =>
      zsum (map (fun e => entry_size m (child p (fst e)) (snd e)) es)
      + zsum (map (fun e => match e with
                            | (name, sub) => tree_size m (child p name) sub
                            end) es)
  | _ => 0
  end.

(** The sum the specification words: the sizes of the regular files of
    the tree, and nothing for links, special files and directories. *)
Fixpoint regular_size (nd : node) : Z :=
  match nd with
  | File n => n
  | Dir true es =>
      zsum (map (fun e => match e with (_, sub) => regular_size sub end) es)
  | _ => 0
  end.

Fixpoint link_free (nd : node) : bool :=
  match nd with
  | Symlink _ => false
  | Dir _ es => forallb (fun e => match e with (_, sub) => link_free sub end) es
  | _ => true
  end.

Fixpoint distinct (names : list string) : bool :=
  match names with
  | [] => true
  | n :: r => negb (existsb (String.eqb n) r) && distinct r
  end.

Definition good_name (n : string) : bool :=
  negb (String.eqb n "..") && negb (NAME_MAX <? String.length n)%nat.

(** A tree whose directories hold distinct names, none of them [".."]
    or longer than [NAME_MAX]. *)
Fixpoint tidy (nd : node) : bool :=
  match nd with
  | Dir _ es =>
      distinct (map fst es) && forallb good_name (map fst es)
      && forallb (fun e => match e with (_, sub) => tidy sub end) es
  | _ => true
  end.

(** No status check of the walk fails. *)
Definition walk_unhindered (m : machine) (p : Path) (nd : node) : bool :=
  forallb (fun q => match t_is_file m q with Failed _ => false | _ => true end)
          (subtree_paths p nd).

(** Induction on trees, with the hypothesis for every entry of a
    directory. *)
Fixpoint node_induction (P : node -> Prop)
    (HF : forall n, P (File n))
    (HD : forall a es, Forall (fun e => P (snd e)) es -> P (Dir a es))
    (HL : forall t, P (Symlink t))
    (HS : P Special)
    (nd : node) {struct nd} : P nd :=
  match nd with
  | File n => HF n
  | Dir a es =>
      HD a es
         ((fix all (l : list (string * node)) : Forall (fun e => P (snd e)) l :=
             match l with
             | [] => @Forall_nil _ _
             | (name, sub) :: r =>
                 @Forall_cons _ (fun e => P (snd e)) (name, sub) r
                   (node_induction P HF HD HL HS sub) (all r)
             end) es)
  | Symlink t => HL t
  | Special => HS
  end.

(** ** What a report lists *)

(** The text [format_bytes] returns for [b]. *)
Definition size_text (b : Z) : string :=
  match format_bytes b with Ok t => t | Raise _ => ""%string end.

(** The categories a report lists, of those that exist: the ones with a
    positive size. *)
Definition listed (seen : list (string * Z)) : list (string * Z) :=
  filter (fun x => 0 <? snd x) seen.

Definition listed_total (seen : list (string * Z)) : Z :=
  zsum (map snd (listed seen)).

Definition listed_lines (seen : list (string * Z)) : list string :=
  map (fun x => category_line (fst x) (size_text (snd x))) (listed seen).

(** ** The unit and the width of a rendered size *)

(** The unit [format_bytes] divides by. *)
Definition unit_of (b : Z) : Z :=
  if b <? KB then 1
  else if b <? MB then KB
  else if b <? GB then MB
  else GB.

(** The width of a category line: two spaces, the label column, one
    space and the size column. *)
Definition LINE_WIDTH : nat := (2 + LABEL_WIDTH + 1 + SIZE_WIDTH)%nat.

(** ** More sample machines *)

(** A directory with two files and, between them, a link that leads
    into a directory closed to the user. *)
Definition data_dir : node :=
  Dir true
    [ ("a"%string, File 100);
      ("link"%string, Symlink (path_of_string "/Users/bob/Library/hidden"));
      ("b"%string, File 200) ].

Definition closed_link_fs : node :=
  Dir true
    [ ("Users"%string, Dir true
        [ ("bob"%string, Dir true
            [ ("Library"%string, Dir false [ ("hidden"%string, File 7) ]) ]) ]);
      ("data"%string, data_dir) ].

Definition sample_closed_link : machine :=
  mkMachine closed_link_fs (Ok "alice"%string)
            (Ok (path_of_string "/Users/alice")) "Darwin"
            sample_dscl false.

(** A directory service that answers for [gina] with two lines: a
    directory that is gone, then, with blanks around it, carol's. *)
Definition two_answers_dscl (argv : list string) : outcome completed :=
  if list_eq_dec string_dec argv (dscl_argv "gina") then
    Ok (mkCompleted 0 ("NFSHomeDirectory: /Volumes/gone" ++ LF
                       ++ "NFSHomeDirectory:   /Volumes/carol  " ++ LF)%string)
  else Ok (mkCompleted 56 ""%string).

Definition sample_two_answers : machine :=
  mkMachine sample_fs (Ok "alice"%string)
            (Ok (path_of_string "/Users/alice")) "Darwin"
            two_answers_dscl false.

(** The sample machine, were it to run Linux. *)
Definition sample_linux : machine :=
  mkMachine sample_fs (Ok "alice"%string)
            (Ok (path_of_string "/Users/alice")) "Linux"
            sample_dscl false.

Section Notions.

Context {H : Host}.

(** ** Failures of the directory-service query *)

(** The check [p.exists() and p.is_dir()]. *)
Definition dir_check (p : Path) : M bool := and_then (exists_ p) (is_dir p).

(** The scan of the query's output, from the state [s] it starts in,
    finds no directory: each line it reads is without the key, or holds
    the key with a value whose check answers [False] in the state
    reached; or the check of one raises, which ends the scan. *)
Inductive scan_fails : list string -> host_state -> Prop :=
  | sf_nil (s : host_state) : scan_fails [] s
  | sf_other (line : string) (rest : list string) (s : host_state) :
      contains NFS_HOME_DIR_KEY line = false ->
      scan_fails rest s ->
      scan_fails (line :: rest) s
  | sf_no_directory (line value : string) (rest : list string)
      (s s1 : host_state) (l1 : list event) :
      after_first NFS_HOME_DIR_KEY line = Some value ->
      dir_check (path_of_string (strip value)) s = (Ok false, s1, l1) ->
      scan_fails rest s1 ->
      scan_fails (line :: rest) s
  | sf_raises (line value : string) (rest : list string)
      (s s1 : host_state) (e : exn) (l1 : list event) :
      after_first NFS_HOME_DIR_KEY line = Some value ->
      dir_check (path_of_string (strip value)) s = (Raise e, s1, l1) ->
      scan_fails (line :: rest) s.

(** The ways the directory-service query can fail, from the state [s] it
    is made in: the process cannot be run, it exits with a non-zero
    status, or the scan of its output finds no directory. *)
Inductive query_failure (username : string) (s : host_state) : Prop :=
  | spawn_failure (e : exn) (s' : host_state) :
      h_run (dscl_argv username) s = (Raise e, s') ->
      is_Exception e = true ->
      query_failure username s
  | nonzero_exit (r : completed) (s' : host_state) :
      h_run (dscl_argv username) s = (Ok r, s') ->
      returncode r <> 0 ->
      query_failure username s
  | no_directory (r : completed) (s' : host_state) :
      h_run (dscl_argv username) s = (Ok r, s') ->
      scan_fails (splitlines (stdout r)) s' ->
      query_failure username s.

(** ** Runs of the loop over the categories *)

(** The host reports no negative file size. *)
Definition sizes_not_negative : Prop :=
  forall p s n s', h_stat_size p s = (Done n, s') -> 0 <= n.

(** Along the run from [s], every category path either does not exist or
    exists with a computed size of 0; the flag tells whether one exists. *)
Inductive only_empty_data :
    list (string * Path) -> host_state -> bool -> Prop :=
  | oed_nil (s : host_state) : only_empty_data [] s false
  | oed_absent (label : string) (path : Path) (rest : list (string * Path))
      (s s1 : host_state) (found : bool) :
      h_exists path s = (Done false, s1) ->
      only_empty_data rest s1 found ->
      only_empty_data ((label, path) :: rest) s found
  | oed_empty (label : string) (path : Path) (rest : list (string * Path))
      (s s1 s2 : host_state) (l : list event) (found : bool) :
      h_exists path s = (Done true, s1) ->
      get_dir_size path s1 = (Ok 0, s2, l) ->
      only_empty_data rest s2 found ->
      only_empty_data ((label, path) :: rest) s true.

(** A computation that prints nothing. *)
Definition silent {A} (m : M A) : Prop :=
  forall s r s' l, m s = (r, s', l) -> printed l = [].

(** ** Runs of the loop over the users *)

(** Along the run from [s], no user of the list has a home directory. *)
Inductive none_resolves : list string -> host_state -> Prop :=
  | nr_nil (s : host_state) : none_resolves [] s
  | nr_cons (username : string) (rest : list string) (s s1 : host_state)
      (l1 : list event) :
      get_home_directory username s = (Ok None, s1, l1) ->
      none_resolves rest s1 ->
      none_resolves (username :: rest) s.

(** ** Lines the scan of the query's output passes over *)

(** The lines the scan passes over, from state [s] to state [s'] with the
    trace [l]: a line without the key, or a line with the key whose value
    does not name an existing directory. *)
Inductive passed_over :
    list string -> host_state -> host_state -> list event -> Prop :=
  | po_nil (s : host_state) : passed_over [] s s []
  | po_other (line : string) (rest : list string) (s s' : host_state)
      (l : list event) :
      contains NFS_HOME_DIR_KEY line = false ->
      passed_over rest s s' l ->
      passed_over (line :: rest) s s' l
  | po_no_directory (line value : string) (rest : list string)
      (s s1 s' : host_state) (l1 l : list event) :
      after_first NFS_HOME_DIR_KEY line = Some value ->
      dir_check (path_of_string (strip value)) s = (Ok false, s1, l1) ->
      passed_over rest s1 s' l ->
      passed_over (line :: rest) s s' (l1 ++ l).

(** ** Sizes seen by the loop over the categories *)

(** The run of the loop over the categories from state [s] to state
    [s']: the categories whose path exists, in the order of the table,
    each with the size computed for it. *)
Inductive sizes_seen :
    list (string * Path) -> host_state -> list (string * Z) -> host_state
    -> Prop :=
  | ss_nil (s : host_state) : sizes_seen [] s [] s
  | ss_absent (label : string) (path : Path) (rest : list (string * Path))
      (s s1 s' : host_state) (seen : list (string * Z)) :
      h_exists path s = (Done false, s1) ->
      sizes_seen rest s1 seen s' ->
      sizes_seen ((label, path) :: rest) s seen s'
  | ss_present (label : string) (path : Path) (rest : list (string * Path))
      (s s1 s2 s' : host_state) (l : list event) (size : Z)
      (seen : list (string * Z)) :
      h_exists path s = (Done true, s1) ->
      get_dir_size path s1 = (Ok size, s2, l) ->
      sizes_seen rest s2 seen s' ->
      sizes_seen ((label, path) :: rest) s ((label, size) :: seen) s'.

(** ** Reports that return *)

(** The reports on a list of users, one after the other from state [s]
    to state [s'], each returning (with [True] or with [False]); [l] is
    what they print and ask, in order. *)
Inductive reported :
    list string -> host_state -> host_state -> list event -> Prop :=
  | rp_nil (s : host_state) : reported [] s s []
  | rp_cons (username : string) (rest : list string) (s s1 s' : host_state)
      (b : bool) (l1 l : list event) :
      calculate_edge_storage username s = (Ok b, s1, l1) ->
      reported rest s1 s' l ->
      reported (username :: rest) s s' (l1 ++ l).

End Notions.

(* ================================================================== *)
(** * Sample values of [format_bytes] *)

Example format_bytes_sample_1 : format_bytes 1023 = Ok "1023B"%string. Proof. reflexivity. Qed.
Example format_bytes_sample_2 : format_bytes 1024 = Ok "1.00KB"%string. Proof. reflexivity. Qed.
Example format_bytes_sample_3 : format_bytes 1048575 = Ok "1024.00KB"%string. Proof. reflexivity. Qed.
Example format_bytes_sample_4 : format_bytes 1048576 = Ok "1.00MB"%string. Proof. reflexivity. Qed.
Example format_bytes_sample_5 : format_bytes 1073741824 = Ok "1.00GB"%string. Proof. reflexivity. Qed.
Example format_bytes_sample_6 : format_bytes 1152 = Ok "1.12KB"%string. Proof. reflexivity. Qed.
Example format_bytes_sample_7 : format_bytes (2 ^ 1100) = Raise OverflowError. Proof. vm_compute. reflexivity. Qed.
Example format_bytes_sample_8 : format_bytes (-5) = Ok "-5B"%string. Proof. reflexivity. Qed.
Example format_bytes_sample_9 : format_bytes 0 = Ok "0B"%string. Proof. reflexivity. Qed.

(* ================================================================== *)
(** * Rounding *)

Lemma round_half_even_bounds n d :
  0 < d -> n / d <= round_half_even n d <= n / d + 1.
Proof.
  intros Hd. unfold round_half_even.
  destruct (2 * (n mod d) <? d); [lia|].
  destruct (d <? 2 * (n mod d)); [lia|].
  destruct (Z.even (n / d)); lia.
Qed.

Lemma round_half_even_mono n1 n2 d :
  0 < d -> n1 <= n2 -> round_half_even n1 d <= round_half_even n2 d.
Proof.
  intros Hd Hn.
  assert (Hq : n1 / d <= n2 / d) by (apply Z.div_le_mono; lia).
  destruct (Z.eq_dec (n1 / d) (n2 / d)) as [E|NE].
  - assert (Hr : n1 mod d <= n2 mod d).
    { rewrite !Z.mod_eq by lia. rewrite E. lia. }
    unfold round_half_even. rewrite E.
    destruct (2 * (n1 mod d) <? d) eqn:A1, (2 * (n2 mod d) <? d) eqn:A2,
             (d <? 2 * (n1 mod d)) eqn:B1, (d <? 2 * (n2 mod d)) eqn:B2,
             (Z.even (n2 / d)); lia.
  - pose proof (round_half_even_bounds n1 Hd).
    pose proof (round_half_even_bounds n2 Hd). lia.
Qed.

Lemma round_half_even_scale n d k :
  0 < d -> 0 < k -> round_half_even (n * k) (d * k) = round_half_even n d.
Proof.
  intros Hd Hk. unfold round_half_even.
  rewrite Z.div_mul_cancel_r by lia.
  rewrite Zmult_mod_distr_r.
  replace (2 * (n mod d * k) <? d * k) with (2 * (n mod d) <? d).
  2:{ destruct (2 * (n mod d) <? d) eqn:A; symmetry;
      [apply Z.ltb_lt; apply Z.ltb_lt in A | apply Z.ltb_ge; apply Z.ltb_ge in A]; nia. }
  replace (d * k <? 2 * (n mod d * k)) with (d <? 2 * (n mod d)).
  2:{ destruct (d <? 2 * (n mod d)) eqn:A; symmetry;
      [apply Z.ltb_lt; apply Z.ltb_lt in A | apply Z.ltb_ge; apply Z.ltb_ge in A]; nia. }
  reflexivity.
Qed.

Lemma round_half_even_exact q d :
  0 < d -> round_half_even (q * d) d = q.
Proof.
  intros Hd. unfold round_half_even.
  rewrite Z.div_mul by lia. rewrite Z.mod_mul by lia.
  replace (2 * 0 <? d) with true by (symmetry; apply Z.ltb_lt; lia).
  reflexivity.
Qed.

Lemma round_half_even_nonneg n d : 0 <= n -> 0 < d -> 0 <= round_half_even n d.
Proof.
  intros Hn Hd. pose proof (round_half_even_bounds n Hd).
  assert (0 <= n / d) by (apply Z.div_pos; lia). lia.
Qed.

Lemma pow2_pos k : 0 <= k -> 0 < 2 ^ k.
Proof. intros. apply Z.pow_pos_nonneg; lia. Qed.

Lemma pow2_split a b : 0 <= a -> 0 <= b -> 2 ^ (a + b) = 2 ^ a * 2 ^ b.
Proof. intros. apply Z.pow_add_r; lia. Qed.

Lemma log2_ge_of_pow2_le b k : 0 <= k -> 2 ^ k <= b -> k <= Z.log2 b.
Proof.
  intros Hk Hb. rewrite <- (Z.log2_pow2 k) by lia.
  apply Z.log2_le_mono. lia.
Qed.

Lemma log2_pos_inv b : 0 < Z.log2 b -> 0 < b.
Proof.
  intros HL. destruct (Z_lt_le_dec 0 b) as [|Hn]; [assumption|].
  rewrite Z.log2_nonpos in HL by assumption. lia.
Qed.

Lemma floor_log2_quot_pow2 b k :
  0 <= k -> 2 ^ k <= b -> floor_log2_quot b (2 ^ k) = Z.log2 b - k.
Proof.
  intros Hk Hb. unfold floor_log2_quot.
  rewrite Z.log2_pow2 by lia.
  pose proof (log2_ge_of_pow2_le Hk Hb) as HL.
  pose proof (pow2_pos Hk) as Hp.
  replace (0 <=? Z.log2 b - k) with true by (symmetry; apply Z.leb_le; lia).
  rewrite <- pow2_split by lia.
  replace (k + (Z.log2 b - k)) with (Z.log2 b) by lia.
  destruct (Z.log2_spec b) as [Hlo _]; [lia|].
  replace (2 ^ Z.log2 b <=? b) with true by (symmetry; apply Z.leb_le; lia).
  reflexivity.
Qed.

(** The mantissa window: for [b] of more than 53 bits, the quotient by
    [2^(log2 b - 52)] rounds into [2^52 .. 2^53]. *)
Lemma round53_window b :
  52 < Z.log2 b ->
  2 ^ 52 <= round_half_even b (2 ^ (Z.log2 b - 52)) <= 2 ^ 53.
Proof.
  intros HL.
  assert (Hb : 0 < b) by (apply log2_pos_inv; lia).
  destruct (Z.log2_spec b Hb) as [Hlo Hhi].
  set (s := Z.log2 b - 52) in *.
  assert (Hs : 0 < 2 ^ s) by (apply pow2_pos; lia).
  pose proof (round_half_even_bounds b Hs) as Hr.
  assert (E1 : 2 ^ Z.log2 b = 2 ^ 52 * 2 ^ s).
  { rewrite <- pow2_split by lia. f_equal. lia. }
  assert (E2 : 2 ^ Z.succ (Z.log2 b) = 2 ^ 53 * 2 ^ s).
  { rewrite <- pow2_split by lia. f_equal. lia. }
  assert (2 ^ 52 <= b / 2 ^ s) by (apply Z.div_le_lower_bound; lia).
  assert (b / 2 ^ s < 2 ^ 53) by (apply Z.div_lt_upper_bound; lia).
  lia.
Qed.

Lemma round53_bounds b :
  0 < b -> 2 ^ Z.log2 b <= round53 b <= 2 ^ (Z.log2 b + 1).
Proof.
  intros Hb. destruct (Z.log2_spec b Hb) as [Hlo Hhi].
  unfold round53. destruct (Z.leb_spec (Z.log2 b - 52) 0) as [Hs|Hs].
  - replace (Z.log2 b + 1) with (Z.succ (Z.log2 b)) by lia. lia.
  - pose proof (@round53_window b ltac:(lia)) as Hw.
    set (s := Z.log2 b - 52) in *.
    assert (Hp : 0 < 2 ^ s) by (apply pow2_pos; lia).
    assert (E1 : 2 ^ Z.log2 b = 2 ^ 52 * 2 ^ s).
    { rewrite <- pow2_split by lia. f_equal. lia. }
    assert (E2 : 2 ^ (Z.log2 b + 1) = 2 ^ 53 * 2 ^ s).
    { rewrite <- pow2_split by lia. f_equal. lia. }
    rewrite E1, E2. nia.
Qed.

Lemma round53_pos b : 0 < b -> 0 < round53 b.
Proof.
  intros Hb. pose proof (round53_bounds Hb).
  assert (0 < 2 ^ Z.log2 b) by (apply pow2_pos; apply Z.log2_nonneg). lia.
Qed.

Lemma round53_mono a b : 0 < a -> a <= b -> round53 a <= round53 b.
Proof.
  intros Ha Hab.
  pose proof (Z.log2_le_mono a b Hab) as HL.
  destruct (Z.eq_dec (Z.log2 a) (Z.log2 b)) as [E|NE].
  - unfold round53. rewrite E.
    destruct (Z.leb_spec (Z.log2 b - 52) 0) as [Hs|Hs]; [lia|].
    assert (Hp : 0 < 2 ^ (Z.log2 b - 52)) by (apply pow2_pos; lia).
    pose proof (round_half_even_mono Hp Hab). nia.
  - pose proof (round53_bounds Ha) as [_ Hu].
    pose proof (@round53_bounds b ltac:(lia)) as [Hl _].
    assert (2 ^ (Z.log2 a + 1) <= 2 ^ Z.log2 b).
    { apply Z.pow_le_mono_r; lia. }
    lia.
Qed.

Lemma round53_small b : b < 2 ^ 53 -> round53 b = b.
Proof.
  intros Hb. unfold round53.
  destruct (Z.leb_spec (Z.log2 b - 52) 0) as [Hs|Hs]; [reflexivity|].
  exfalso.
  assert (0 < b) by (apply log2_pos_inv; lia).
  destruct (Z.log2_spec b) as [Hlo _]; [lia|].
  assert (2 ^ 53 <= 2 ^ Z.log2 b) by (apply Z.pow_le_mono_r; lia). lia.
Qed.

(** ** Division of a byte count by a unit *)

Lemma mantissa_round53 b :
  0 < b ->
  round53 b = if Z.log2 b - 52 <=? 0 then b
              else mantissa b * 2 ^ (Z.log2 b - 52).
Proof.
  intros Hb. unfold round53, mantissa.
  destruct (Z.log2 b - 52 <=? 0); reflexivity.
Qed.

Lemma log2_mantissa b :
  0 < b -> Z.log2 (mantissa b) + (Z.log2 b - 52) = Z.log2 (round53 b).
Proof.
  intros Hb. unfold round53, mantissa.
  destruct (Z.leb_spec (Z.log2 b - 52) 0) as [Hs|Hs].
  - rewrite Z.log2_mul_pow2 by lia. lia.
  - pose proof (@round53_window b ltac:(lia)) as Hw.
    rewrite Z.log2_mul_pow2 by lia. lia.
Qed.

Lemma int_truediv_pow2 b k :
  0 <= k -> 2 ^ k <= b ->
  int_truediv b (2 ^ k) =
    if 1024 + k <=? Z.log2 (round53 b) then Raise OverflowError
    else Ok (mkfloat false (mantissa b) (Z.log2 b - 52 - k)).
Proof.
  intros Hk Hb.
  pose proof (pow2_pos Hk) as Hp.
  assert (Hbpos : 0 < b) by lia.
  pose proof (log2_ge_of_pow2_le Hk Hb) as HL.
  unfold int_truediv.
  replace (2 ^ k =? 0) with false by (symmetry; apply Z.eqb_neq; lia).
  replace (b <? 0) with false by (symmetry; apply Z.ltb_ge; lia).
  replace (2 ^ k <? 0) with false by (symmetry; apply Z.ltb_ge; lia).
  rewrite (Z.abs_eq b) by lia. rewrite (Z.abs_eq (2 ^ k)) by lia.
  replace (b =? 0) with false by (symmetry; apply Z.eqb_neq; lia).
  rewrite floor_log2_quot_pow2 by assumption.
  rewrite Z.max_l by lia.
  set (L := Z.log2 b) in *.
  assert (Hm : (if 0 <=? L - k - 52
                then round_half_even b (2 ^ k * 2 ^ (L - k - 52))
                else round_half_even (b * 2 ^ (- (L - k - 52))) (2 ^ k))
               = mantissa b).
  { unfold mantissa. fold L.
    destruct (Z.leb_spec 0 (L - k - 52)) as [He|He];
      destruct (Z.leb_spec (L - 52) 0) as [Hs|Hs].
    - assert (k = 0) by lia. assert (L = 52) by lia. subst k.
      replace (L - 0 - 52) with 0 by lia. replace (- (L - 52)) with 0 by lia.
      change (2 ^ 0) with 1. rewrite !Z.mul_1_r.
      transitivity (round_half_even (b * 1) 1);
        [f_equal; lia | apply round_half_even_exact; lia].
    - rewrite <- pow2_split by lia. f_equal. f_equal. lia.
    - replace (- (L - k - 52)) with (- (L - 52) + k) by lia.
      rewrite pow2_split by lia. rewrite Z.mul_assoc.
      apply round_half_even_exact. assumption.
    - replace (2 ^ k) with (2 ^ (L - 52) * 2 ^ (- (L - k - 52))) at 1.
      2:{ rewrite <- pow2_split by lia. f_equal. lia. }
      apply round_half_even_scale; apply pow2_pos; lia. }
  simpl xorb. rewrite Hm.
  replace (Z.log2 (mantissa b) + (L - k - 52))
    with (Z.log2 (round53 b) - k)
    by (rewrite <- (log2_mantissa Hbpos); fold L; lia).
  replace (1024 <=? Z.log2 (round53 b) - k) with (1024 + k <=? Z.log2 (round53 b)).
  2:{ destruct (Z.leb_spec (1024 + k) (Z.log2 (round53 b)));
      symmetry; [apply Z.leb_le | apply Z.leb_gt]; lia. }
  replace (L - k - 52) with (L - 52 - k) by lia.
  reflexivity.
Qed.

Lemma format_2f_quotient b k :
  0 <= k -> 2 ^ k <= b ->
  format_2f (mkfloat false (mantissa b) (Z.log2 b - 52 - k))
  = two_decimals (round_half_even (100 * round53 b) (2 ^ k)).
Proof.
  intros Hk Hb.
  pose proof (pow2_pos Hk) as Hp.
  assert (Hbpos : 0 < b) by lia.
  pose proof (log2_ge_of_pow2_le Hk Hb) as HL.
  unfold format_2f. cbn [f_neg f_mant f_exp].
  change (("" ++ ?x)%string) with x.
  f_equal.
  rewrite (mantissa_round53 Hbpos). unfold mantissa.
  set (L := Z.log2 b) in *.
  destruct (Z.leb_spec 0 (L - 52 - k)) as [He|He];
    destruct (Z.leb_spec (L - 52) 0) as [Hs|Hs].
  - assert (k = 0) by lia. assert (L = 52) by lia. subst k.
    replace (L - 52 - 0) with 0 by lia. replace (- (L - 52)) with 0 by lia.
    change (2 ^ 0) with 1. symmetry.
    transitivity (round_half_even (b * 1 * 100 * 1 * 1) 1);
      [f_equal; lia | apply round_half_even_exact; lia].
  - symmetry.
    replace (100 * (round_half_even b (2 ^ (L - 52)) * 2 ^ (L - 52)))
      with (round_half_even b (2 ^ (L - 52)) * 100 * 2 ^ (L - 52 - k) * 2 ^ k).
    2:{ replace (2 ^ (L - 52)) with (2 ^ (L - 52 - k) * 2 ^ k) at 3.
        2:{ rewrite <- pow2_split by lia. f_equal. lia. }
        ring. }
    apply round_half_even_exact. assumption.
  - replace (2 ^ (- (L - 52 - k))) with (2 ^ k * 2 ^ (- (L - 52))).
    2:{ rewrite <- pow2_split by lia. f_equal. lia. }
    replace (b * 2 ^ (- (L - 52)) * 100) with (100 * b * 2 ^ (- (L - 52))) by ring.
    apply round_half_even_scale; [assumption | apply pow2_pos; lia].
  - symmetry.
    replace (2 ^ k) with (2 ^ (- (L - 52 - k)) * 2 ^ (L - 52)).
    2:{ rewrite <- pow2_split by lia. f_equal. lia. }
    replace (100 * (round_half_even b (2 ^ (L - 52)) * 2 ^ (L - 52)))
      with (round_half_even b (2 ^ (L - 52)) * 100 * 2 ^ (L - 52)) by ring.
    apply round_half_even_scale; apply pow2_pos; lia.
Qed.

(** What [format_bytes] does in a bracket whose unit is [2^k]. *)
Lemma render_quotient b k (suffix : string) :
  0 <= k -> 2 ^ k <= b ->
  obind (int_truediv b (2 ^ k)) (fun x => Ok (format_2f x ++ suffix)%string)
  = if 1024 + k <=? Z.log2 (round53 b) then Raise OverflowError
    else Ok (two_decimals (round_half_even (100 * round53 b) (2 ^ k))
             ++ suffix)%string.
Proof.
  intros Hk Hb. rewrite int_truediv_pow2 by assumption.
  destruct (1024 + k <=? Z.log2 (round53 b)); [reflexivity|].
  cbn [obind]. rewrite format_2f_quotient by assumption. reflexivity.
Qed.

(** ** Reading a rendered size back *)

Lemma string_app_assoc (a b c : string) :
  ((a ++ b) ++ c = a ++ (b ++ c))%string.
Proof. induction a as [|x a IH]; cbn; [reflexivity | rewrite IH; reflexivity]. Qed.

Lemma decimal_digit_cases d :
  is_decimal_digit d ->
  d = 0 \/ d = 1 \/ d = 2 \/ d = 3 \/ d = 4 \/ d = 5 \/ d = 6 \/ d = 7
  \/ d = 8 \/ d = 9.
Proof. unfold is_decimal_digit. lia. Qed.

Lemma digit_read_back d :
  is_decimal_digit d ->
  is_digit (digit d) = true /\ digit_value (digit d) = d
  /\ Ascii.eqb (digit d) "-" = false /\ Ascii.eqb (digit d) "." = false.
Proof.
  intros Hd. apply decimal_digit_cases in Hd.
  repeat (destruct Hd as [-> | Hd]; [repeat split; reflexivity|]).
  subst d. repeat split; reflexivity.
Qed.

Lemma scan_digits_app ds rest acc cnt :
  Forall is_decimal_digit ds ->
  scan_digits (string_of_digits ds ++ rest) acc cnt
  = scan_digits rest (fold_left (fun a d => 10 * a + d) ds acc)
                (cnt + List.length ds).
Proof.
  intros Hds. revert acc cnt.
  induction Hds as [|d ds Hd Hds IH]; intros acc cnt.
  - cbn. rewrite Nat.add_0_r. reflexivity.
  - destruct (digit_read_back Hd) as (E1 & E2 & _).
    cbn [string_of_digits fold_right append scan_digits].
    rewrite E1, E2. unfold string_of_digits in IH. rewrite IH.
    cbn [fold_left List.length]. f_equal. lia.
Qed.

Lemma digits_le_spec fuel n :
  0 <= n < 2 ^ Z.of_nat fuel ->
  Forall is_decimal_digit (digits_le fuel n)
  /\ fold_right (fun d a => 10 * a + d) 0 (digits_le fuel n) = n.
Proof.
  revert n. induction fuel as [|f IH]; intros n Hn.
  - cbn in *. split; [constructor | lia].
  - cbn [digits_le].
    destruct (Z.ltb_spec n 10) as [Hlt|Hge].
    + split; [repeat constructor; unfold is_decimal_digit; lia | cbn; lia].
    + assert (Hq : 0 <= n / 10 < 2 ^ Z.of_nat f).
      { split; [apply Z.div_pos; lia|].
        apply Z.div_lt_upper_bound; [lia|].
        rewrite Nat2Z.inj_succ, Z.pow_succ_r in Hn by lia. lia. }
      destruct (IH _ Hq) as [F V].
      split.
      * constructor; [|assumption].
        unfold is_decimal_digit. pose proof (Z.mod_pos_bound n 10). lia.
      * cbn [fold_right]. rewrite V.
        pose proof (Z.div_mod n 10). lia.
Qed.

Lemma digits_le_nonempty fuel n : digits_le (S fuel) n <> [].
Proof. cbn. destruct (n <? 10); discriminate. Qed.

Lemma log2_fuel n : 0 <= n -> 0 <= n < 2 ^ Z.of_nat (S (Z.to_nat (Z.log2 n))).
Proof.
  intros Hn. split; [assumption|].
  rewrite Nat2Z.inj_succ, Z2Nat.id by apply Z.log2_nonneg.
  destruct (Z.eq_dec n 0) as [->|]; [reflexivity|].
  apply Z.log2_spec. lia.
Qed.

(** Reading [str_nat n] gives [n] back, from at least one digit. *)
Lemma scan_str_nat n rest acc :
  0 <= n ->
  exists k, scan_digits (str_nat n ++ rest) acc 0
            = scan_digits rest (acc * 10 ^ Z.of_nat (S k) + n) (S k).
Proof.
  intros Hn. unfold str_nat.
  set (ds := digits_le _ n).
  destruct (@digits_le_spec _ _ (log2_fuel Hn)) as [F V]. fold ds in F, V.
  assert (Hne : ds <> []) by apply digits_le_nonempty.
  rewrite scan_digits_app by (apply Forall_rev; assumption).
  assert (G : forall l a, fold_left (fun a d => 10 * a + d) l a
                          = a * 10 ^ Z.of_nat (List.length l)
                            + fold_left (fun a d => 10 * a + d) l 0).
  { induction l as [|x l IHl]; intros a.
    - cbn. lia.
    - cbn [fold_left List.length]. rewrite IHl. rewrite (IHl (10 * 0 + x)).
      rewrite Nat2Z.inj_succ, Z.pow_succ_r by lia. ring. }
  rewrite G.
  rewrite <- (rev_involutive ds) in V. rewrite fold_left_rev_right in V.
  rewrite V.
  rewrite length_rev.
  destruct ds as [|d ds']; [contradiction|].
  exists (List.length ds'). reflexivity.
Qed.

Lemma str_nat_head n :
  0 <= n -> exists d r, is_decimal_digit d /\ str_nat n = String (digit d) r.
Proof.
  intros Hn. unfold str_nat.
  set (ds := digits_le _ n).
  destruct (@digits_le_spec _ _ (log2_fuel Hn)) as [F _]. fold ds in F.
  assert (Hne : ds <> []) by apply digits_le_nonempty.
  apply Forall_rev in F.
  destruct (rev ds) as [|d l] eqn:E.
  - apply (f_equal (@rev Z)) in E. rewrite rev_involutive in E. contradiction.
  - inversion F; subst. exists d, (string_of_digits l). split; [assumption|reflexivity].
Qed.

Lemma scan_unit u acc cnt : is_unit u -> scan_digits u acc cnt = (acc, cnt, u).
Proof.
  destruct u as [|c r]; [reflexivity|]. intros [E _]. cbn. rewrite E. reflexivity.
Qed.

Lemma parse_body_str_nat neg n u :
  0 <= n -> is_unit u ->
  parse_body neg (str_nat n ++ u)
  = Some (mkReading (if neg then - n else n) 0 u).
Proof.
  intros Hn Hu. unfold parse_body.
  destruct (scan_str_nat u 0 Hn) as [k Hk].
  rewrite Hk, scan_unit by assumption.
  replace (0 * 10 ^ Z.of_nat (S k) + n) with n by lia.
  destruct u as [|c r']; [reflexivity|].
  destruct Hu as [_ ->]. reflexivity.
Qed.

(** A string that starts with the digits of a number carries no sign. *)
Lemma parse_size_unsigned n rest :
  0 <= n -> parse_size (str_nat n ++ rest) = parse_body false (str_nat n ++ rest).
Proof.
  intros Hn. destruct (str_nat_head Hn) as (d & r & Hd & E).
  destruct (digit_read_back Hd) as (_ & _ & Em & _).
  rewrite E. cbn [append parse_size]. rewrite Em. reflexivity.
Qed.

Lemma parse_str_int b u :
  is_unit u -> parse_size (str_int b ++ u) = Some (mkReading b 0 u).
Proof.
  intros Hu. unfold str_int.
  destruct (Z.ltb_spec b 0) as [Hneg|Hpos].
  - cbn [append parse_size]. change (Ascii.eqb "-" "-") with true. cbv iota.
    rewrite parse_body_str_nat by (assumption || lia).
    f_equal. f_equal. lia.
  - rewrite parse_size_unsigned by assumption.
    apply parse_body_str_nat; assumption.
Qed.

Lemma two_digits_value h :
  100 * (h / 100) + 10 * (h / 10 mod 10) + h mod 10 = h.
Proof.
  pose proof (Z.div_mod h 10 ltac:(lia)).
  pose proof (Z.div_mod (h / 10) 10 ltac:(lia)).
  rewrite Z.div_div in * by lia. change (10 * 10) with 100 in *. lia.
Qed.

Lemma parse_body_two_decimals neg h u :
  0 <= h -> is_unit u ->
  parse_body neg (two_decimals h ++ u)
  = Some (mkReading (if neg then - h else h) 2 u).
Proof.
  intros Hh Hu. unfold parse_body, two_decimals.
  assert (Hn : 0 <= h / 100) by (apply Z.div_pos; lia).
  rewrite !string_app_assoc.
  match goal with
  | |- context [scan_digits (str_nat ?n ++ ?rest)%string 0 0] =>
      destruct (scan_str_nat rest 0 Hn) as [k Hk]
  end.
  rewrite Hk. cbn [append scan_digits].
  change (is_digit ".") with false. cbv iota.
  change (Ascii.eqb "." ".") with true. cbv iota.
  cbn [scan_digits].
  assert (D1 : is_decimal_digit (h / 10 mod 10))
    by (unfold is_decimal_digit; pose proof (Z.mod_pos_bound (h / 10) 10); lia).
  assert (D2 : is_decimal_digit (h mod 10))
    by (unfold is_decimal_digit; pose proof (Z.mod_pos_bound h 10); lia).
  destruct (digit_read_back D1) as (A1 & B1 & _).
  destruct (digit_read_back D2) as (A2 & B2 & _).
  rewrite A1, B1, A2, B2. rewrite scan_unit by assumption.
  pose proof (two_digits_value h) as V.
  replace (10 * (10 * (0 * 10 ^ Z.of_nat (S k) + h / 100) + h / 10 mod 10)
           + h mod 10) with h by lia.
  reflexivity.
Qed.

Lemma parse_two_decimals h u :
  0 <= h -> is_unit u ->
  parse_size (two_decimals h ++ u) = Some (mkReading h 2 u).
Proof.
  intros Hh Hu.
  rewrite <- (@parse_body_two_decimals false h u Hh Hu).
  unfold two_decimals. rewrite !string_app_assoc.
  apply parse_size_unsigned. apply Z.div_pos; lia.
Qed.

(* ================================================================== *)
(** * [format_bytes] *)

Lemma round_half_even_nearest n d :
  0 < d -> 2 * Z.abs (n - d * round_half_even n d) <= d.
Proof.
  intros Hd. unfold round_half_even.
  pose proof (Z.div_mod n d ltac:(lia)) as E.
  pose proof (Z.mod_pos_bound n d Hd) as B.
  destruct (Z.ltb_spec (2 * (n mod d)) d).
  - lia.
  - destruct (Z.ltb_spec d (2 * (n mod d))).
    + lia.
    + destruct (Z.even (n / d)); lia.
Qed.

Lemma format_bytes_B b :
  b < KB -> format_bytes b = Ok (str_int b ++ "B")%string.
Proof.
  intros Hb. unfold format_bytes.
  replace (b <? KB) with true by (symmetry; apply Z.ltb_lt; assumption).
  reflexivity.
Qed.

(** Below [2^53] bytes the quotient by the unit is exact, and far from
    the largest float. *)
Lemma render_exact b k (suffix : string) :
  0 <= k <= 30 -> 2 ^ k <= b < 2 ^ 53 ->
  obind (int_truediv b (2 ^ k)) (fun x => Ok (format_2f x ++ suffix)%string)
  = Ok (two_decimals (round_half_even (100 * b) (2 ^ k)) ++ suffix)%string.
Proof.
  intros Hk Hb. rewrite render_quotient by lia.
  rewrite round53_small by lia.
  assert (Z.log2 b < 53).
  { apply Z.log2_lt_pow2; [|lia].
    assert (0 < 2 ^ k) by (apply pow2_pos; lia). lia. }
  replace (1024 + k <=? Z.log2 b) with false by (symmetry; apply Z.leb_gt; lia).
  reflexivity.
Qed.

Lemma format_bytes_KB b :
  KB <= b < MB ->
  format_bytes b
  = Ok (two_decimals (round_half_even (100 * b) KB) ++ "KB")%string.
Proof.
  intros Hb. unfold format_bytes.
  replace (b <? KB) with false by (symmetry; apply Z.ltb_ge; lia).
  replace (b <? MB) with true by (symmetry; apply Z.ltb_lt; lia).
  change KB with (2 ^ 10) in *. change MB with (2 ^ 20) in *.
  apply render_exact; [lia|].
  assert (2 ^ 20 < 2 ^ 53) by (apply Z.pow_lt_mono_r; lia). lia.
Qed.

Lemma format_bytes_MB b :
  MB <= b < GB ->
  format_bytes b
  = Ok (two_decimals (round_half_even (100 * b) MB) ++ "MB")%string.
Proof.
  intros Hb. unfold format_bytes.
  assert (KB < MB) by reflexivity.
  replace (b <? KB) with false by (symmetry; apply Z.ltb_ge; lia).
  replace (b <? MB) with false by (symmetry; apply Z.ltb_ge; lia).
  replace (b <? GB) with true by (symmetry; apply Z.ltb_lt; lia).
  change MB with (2 ^ 20) in *. change GB with (2 ^ 30) in *.
  apply render_exact; [lia|].
  assert (2 ^ 30 < 2 ^ 53) by (apply Z.pow_lt_mono_r; lia). lia.
Qed.

Lemma format_bytes_GB b :
  GB <= b ->
  format_bytes b
  = if 1054 <=? Z.log2 (round53 b) then Raise OverflowError
    else Ok (two_decimals (round_half_even (100 * round53 b) GB) ++ "GB")%string.
Proof.
  intros Hb. unfold format_bytes.
  assert (KB < MB) by reflexivity. assert (MB < GB) by reflexivity.
  replace (b <? KB) with false by (symmetry; apply Z.ltb_ge; lia).
  replace (b <? MB) with false by (symmetry; apply Z.ltb_ge; lia).
  replace (b <? GB) with false by (symmetry; apply Z.ltb_ge; lia).
  change GB with (2 ^ 30) in *.
  rewrite render_quotient by lia. reflexivity.
Qed.

Lemma no_overflow_below b : 0 < b < 2 ^ 1053 -> Z.log2 (round53 b) < 1054.
Proof.
  intros Hb.
  assert (HL : Z.log2 b < 1053) by (apply Z.log2_lt_pow2; lia).
  pose proof (@round53_bounds b ltac:(lia)) as [_ Hu].
  pose proof (@round53_pos b ltac:(lia)).
  assert (Z.log2 (round53 b) <= Z.log2 (2 ^ (Z.log2 b + 1)))
    by (apply Z.log2_le_mono; assumption).
  rewrite Z.log2_pow2 in * by (pose proof (Z.log2_nonneg b); lia). lia.
Qed.

Lemma overflow_from b : 2 ^ 1054 <= b -> 1054 <= Z.log2 (round53 b).
Proof.
  intros Hb.
  assert (0 < 2 ^ 1054) by (apply pow2_pos; lia).
  pose proof (@round53_bounds b ltac:(lia)) as [Hl _].
  assert (1054 <= Z.log2 b) by (apply log2_ge_of_pow2_le; lia).
  assert (2 ^ 1054 <= 2 ^ Z.log2 b) by (apply Z.pow_le_mono_r; lia).
  apply log2_ge_of_pow2_le; lia.
Qed.

Lemma unit_B : is_unit "B". Proof. split; reflexivity. Qed.
Lemma unit_KB : is_unit "KB". Proof. split; reflexivity. Qed.
Lemma unit_MB : is_unit "MB". Proof. split; reflexivity. Qed.
Lemma unit_GB : is_unit "GB". Proof. split; reflexivity. Qed.

Lemma shown_B b : b < KB -> shown b = Some (mkReading b 0 "B").
Proof.
  intros Hb. unfold shown. rewrite format_bytes_B by assumption.
  apply parse_str_int, unit_B.
Qed.

Lemma shown_KB b :
  KB <= b < MB ->
  shown b = Some (mkReading (round_half_even (100 * b) KB) 2 "KB").
Proof.
  intros Hb. unfold shown. rewrite format_bytes_KB by assumption.
  apply parse_two_decimals; [|apply unit_KB].
  apply round_half_even_nonneg; unfold KB in *; lia.
Qed.

Lemma shown_MB b :
  MB <= b < GB ->
  shown b = Some (mkReading (round_half_even (100 * b) MB) 2 "MB").
Proof.
  intros Hb. unfold shown. rewrite format_bytes_MB by assumption.
  apply parse_two_decimals; [|apply unit_MB].
  apply round_half_even_nonneg; unfold MB in *; lia.
Qed.

Lemma shown_GB b :
  GB <= b ->
  shown b
  = if 1054 <=? Z.log2 (round53 b) then None
    else Some (mkReading (round_half_even (100 * round53 b) GB) 2 "GB").
Proof.
  intros Hb. unfold shown. rewrite format_bytes_GB by assumption.
  destruct (1054 <=? Z.log2 (round53 b)); [reflexivity|].
  apply parse_two_decimals; [|apply unit_GB].
  assert (0 < round53 b) by (apply round53_pos; unfold GB in *; lia).
  apply round_half_even_nonneg; unfold GB; lia.
Qed.

(** C1: for every byte count, from 0 up to 2^1053 (a file system reports
    less than 2^64), the unit is chosen by the thresholds 1024, 1024^2
    and 1024^3.  Below 1024 the count is written as an integer followed
    by B; in each bracket from 1024 on, the quotient by the unit is
    written rounded to hundredths (ties to even) with exactly two
    decimals and the unit's suffix.  The five boundary values are
    rendered as the specification lists them. *)
Theorem format_bytes_brackets (b : Z) :
  0 <= b < 2 ^ 1053 ->
  (b < KB ->
     format_bytes b = Ok (str_int b ++ "B")%string
     /\ shown b = Some (mkReading b 0 "B"))
  /\ (KB <= b < MB ->
        format_bytes b
        = Ok (two_decimals (round_half_even (100 * b) KB) ++ "KB")%string
        /\ shown b = Some (mkReading (round_half_even (100 * b) KB) 2 "KB"))
  /\ (MB <= b < GB ->
        format_bytes b
        = Ok (two_decimals (round_half_even (100 * b) MB) ++ "MB")%string
        /\ shown b = Some (mkReading (round_half_even (100 * b) MB) 2 "MB"))
  /\ (GB <= b ->
        format_bytes b
        = Ok (two_decimals (round_half_even (100 * round53 b) GB) ++ "GB")%string
        /\ shown b
           = Some (mkReading (round_half_even (100 * round53 b) GB) 2 "GB")
        /\ (b < 2 ^ 53 -> round53 b = b))
  /\ format_bytes 1023 = Ok "1023B"%string
  /\ format_bytes 1024 = Ok "1.00KB"%string
  /\ format_bytes 1048575 = Ok "1024.00KB"%string
  /\ format_bytes 1048576 = Ok "1.00MB"%string
  /\ format_bytes 1073741824 = Ok "1.00GB"%string.
Proof.
  intros [H0 Hhi].
  split; [|split; [|split; [|split]]].
  - intros Hb. split; [apply format_bytes_B | apply shown_B]; assumption.
  - intros Hb. split; [apply format_bytes_KB | apply shown_KB]; assumption.
  - intros Hb. split; [apply format_bytes_MB | apply shown_MB]; assumption.
  - intros Hlo.
    assert (Hn : Z.log2 (round53 b) < 1054)
      by (apply no_overflow_below; unfold GB in *; lia).
    rewrite format_bytes_GB, shown_GB by assumption.
    replace (1054 <=? Z.log2 (round53 b)) with false
      by (symmetry; apply Z.leb_gt; assumption).
    repeat split. apply round53_small.
  - repeat split; reflexivity.
Qed.

(** 1536 bytes are one and a half KB; 5000000000 bytes are 4.66 GB. *)
Lemma format_bytes_brackets_witness :
  (format_bytes 1536 = Ok "1.50KB"%string
   /\ shown 1536 = Some (mkReading 150 2 "KB"))
  /\ format_bytes 5000000000 = Ok "4.66GB"%string.
Proof.
  split.
  - apply (proj1 (proj2 (@format_bytes_brackets 1536
                           ltac:(split; [lia | reflexivity])))).
    unfold KB, MB. lia.
  - apply (proj1 (proj2 (proj2 (proj2 (@format_bytes_brackets 5000000000
                           ltac:(split; [lia | reflexivity])))))).
    unfold GB. lia.
Defined.

Lemma reading_value_le n1 n2 places u1 u2 :
  n1 <= n2 ->
  (reading_value (mkReading n1 places u1)
   <= reading_value (mkReading n2 places u2))%Q.
Proof.
  intros Hn. unfold reading_value, Qle. cbn [r_number r_places Qnum Qden]. nia.
Qed.

Lemma bracket_cases x :
  (x < KB /\ bracket x = 0%nat)
  \/ (KB <= x < MB /\ bracket x = 1%nat)
  \/ (MB <= x < GB /\ bracket x = 2%nat)
  \/ (GB <= x /\ bracket x = 3%nat).
Proof.
  unfold bracket.
  destruct (Z.ltb_spec x KB); [left; split; [assumption|reflexivity]|].
  destruct (Z.ltb_spec x MB); [right; left; split; [lia|reflexivity]|].
  destruct (Z.ltb_spec x GB); [right; right; left; split; [lia|reflexivity]|].
  right; right; right. split; [lia|reflexivity].
Qed.

(** C9: within one unit bracket, a larger byte count is never shown as a
    smaller number: whenever the larger count is rendered, so is the
    smaller one, with the same unit and a value that is not greater. *)
Theorem format_bytes_monotone_in_bracket (a b : Z) (rb : reading) :
  bracket a = bracket b ->
  a <= b ->
  shown b = Some rb ->
  exists ra, shown a = Some ra
             /\ r_unit ra = r_unit rb
             /\ (reading_value ra <= reading_value rb)%Q.
Proof.
  intros Hbr Hab Hrb.
  destruct (bracket_cases a) as [[A Ea]|[[A Ea]|[[A Ea]|[A Ea]]]];
    destruct (bracket_cases b) as [[B Eb]|[[B Eb]|[[B Eb]|[B Eb]]]];
    rewrite Ea, Eb in Hbr; try discriminate.
  - rewrite (shown_B A).
    assert (rb = mkReading b 0 "B") by (rewrite (shown_B B) in Hrb; congruence).
    subst rb.
    eexists; repeat split. apply reading_value_le; assumption.
  - rewrite (shown_KB A).
    assert (rb = mkReading (round_half_even (100 * b) KB) 2 "KB")
      by (rewrite (shown_KB B) in Hrb; congruence).
    subst rb.
    eexists; repeat split.
    apply reading_value_le, round_half_even_mono; unfold KB; lia.
  - rewrite (shown_MB A).
    assert (rb = mkReading (round_half_even (100 * b) MB) 2 "MB")
      by (rewrite (shown_MB B) in Hrb; congruence).
    subst rb.
    eexists; repeat split.
    apply reading_value_le, round_half_even_mono; unfold MB; lia.
  - rewrite (shown_GB B) in Hrb. rewrite (shown_GB A).
    assert (Ha : 0 < a) by (unfold GB in *; lia).
    pose proof (round53_mono Ha Hab) as Hm.
    pose proof (round53_pos Ha) as Hp.
    destruct (Z.leb_spec 1054 (Z.log2 (round53 b))) as [Ov|NoOv]; [discriminate|].
    pose proof (Z.log2_le_mono _ _ Hm).
    replace (1054 <=? Z.log2 (round53 a)) with false
      by (symmetry; apply Z.leb_gt; lia).
    assert (rb = mkReading (round_half_even (100 * round53 b) GB) 2 "GB")
      by congruence.
    subst rb.
    eexists; repeat split.
    apply reading_value_le, round_half_even_mono; unfold GB; lia.
Qed.

Lemma format_bytes_monotone_in_bracket_witness :
  exists ra, shown 1024 = Some ra
             /\ r_unit ra = r_unit (mkReading 200 2 "KB")
             /\ (reading_value ra <= reading_value (mkReading 200 2 "KB"))%Q.
Proof.
  apply (@format_bytes_monotone_in_bracket 1024 2047 (mkReading 200 2 "KB"));
    [reflexivity | lia | reflexivity].
Defined.

(* ================================================================== *)
(** * The monad of effects *)

Section Effects.

Context {H : Host}.

Lemma bind_ok A B (m : M A) (k : A -> M B) (s s1 : host_state) (a : A)
    (l1 : list event) :
  m s = (Ok a, s1, l1) ->
  bind m k s = match k a s1 with (r, s2, l2) => (r, s2, l1 ++ l2) end.
Proof. intros E. unfold bind. rewrite E. reflexivity. Qed.

Lemma bind_raise A B (m : M A) (k : A -> M B) (s s1 : host_state) (e : exn)
    (l1 : list event) :
  m s = (Raise e, s1, l1) -> bind m k s = (Raise e, s1, l1).
Proof. intros E. unfold bind. rewrite E. reflexivity. Qed.

Lemma bind_lift_ok A B (a : A) (k : A -> M B) (s : host_state) :
  bind (lift (Ok a)) k s = k a s.
Proof. unfold bind, lift. destruct (k a s) as [[r s2] l2]. reflexivity. Qed.

Lemma ask_os_outcome A (c : call) (f : host_state -> os_result A * host_state)
    (s : host_state) :
  (exists a s', f s = (Done a, s') /\ ask_os c f s = (Ok a, s', [Called c]))
  \/ (exists e s', f s = (Failed e, s')
                  /\ ask_os c f s = (Raise (OSError e), s', [Called c])).
Proof.
  unfold ask_os. destruct (f s) as [[a|e] s'].
  - left. exists a, s'. split; reflexivity.
  - right. exists e, s'. split; reflexivity.
Qed.

(** A check of the file system raises nothing but [OSError]. *)
Lemma ask_os_raises A (c : call) (f : host_state -> os_result A * host_state)
    (s s' : host_state) (e : exn) (l : list event) :
  ask_os c f s = (Raise e, s', l) -> is_OSError e = true.
Proof.
  destruct (ask_os_outcome c f s) as [(a & s1 & _ & E)|(e1 & s1 & _ & E)];
    rewrite E; intros Q; inversion Q; reflexivity.
Qed.

End Effects.

Arguments bind_ok {H A B m} k {s s1 a l1} _.
Arguments bind_raise {H A B m} k {s s1 e l1} _.

(* ================================================================== *)
(** * The resolver *)

Section Resolver.

Context {H : Host}.

Lemma dir_check_raises (p : Path) (s s' : host_state) (e : exn) (l : list event) :
  dir_check p s = (Raise e, s', l) -> is_OSError e = true.
Proof.
  unfold dir_check, and_then, bind, exists_, is_dir.
  destruct (ask_os_outcome (c_exists p) (h_exists p) s)
    as [(a & s1 & _ & E)|(e1 & s1 & _ & E)]; rewrite E.
  - destruct a.
    + destruct (ask_os_outcome (c_is_dir p) (h_is_dir p) s1)
        as [(a2 & s2 & _ & E2)|(e2 & s2 & _ & E2)]; rewrite E2;
        intros Q; inversion Q; reflexivity.
    + cbn. intros Q; inversion Q.
  - intros Q; inversion Q; reflexivity.
Qed.

Lemma OSError_is_Exception e : is_OSError e = true -> is_Exception e = true.
Proof. destruct e; cbn; congruence. Qed.

(** The scan of the output ends without a path, or by an [Exception],
    when it finds no directory. *)
Lemma scan_lines_fails (lines : list string) (s : host_state) :
  scan_fails lines s ->
  exists s' l,
    scan_lines lines s = (Ok None, s', l)
    \/ exists e, scan_lines lines s = (Raise e, s', l) /\ is_Exception e = true.
Proof.
  induction 1 as [s | line rest s Hc _ IH
                    | line value rest s s1 l1 Ha Hd _ IH
                    | line value rest s s1 e l1 Ha Hd].
  - exists s, []. left. reflexivity.
  - cbn [scan_lines]. rewrite Hc. exact IH.
  - cbn [scan_lines]. unfold contains, split_once_snd. rewrite Ha.
    rewrite bind_lift_ok. unfold dir_check in Hd. rewrite (bind_ok _ Hd).
    destruct IH as (s2 & l2 & [E|(e & E & He)]); rewrite E.
    + exists s2, (l1 ++ l2). left. reflexivity.
    + exists s2, (l1 ++ l2). right. exists e. split; [reflexivity|assumption].
  - cbn [scan_lines]. unfold contains, split_once_snd. rewrite Ha.
    rewrite bind_lift_ok.
    pose proof (dir_check_raises _ _ Hd) as He.
    unfold dir_check in Hd. rewrite (bind_raise _ Hd).
    exists s1, l1. right. exists e. split; [reflexivity|].
    apply OSError_is_Exception. assumption.
Qed.

(** For the user who runs the script, the answer is what [Path.home()]
    gives, and its exception when it raises, after exactly two calls:
    the user's name and that home directory.  The path [/Users/<name>] is
    not looked at and no process is started. *)
Lemma current_user_resolves_directly (username : string)
    (s s1 s2 : host_state) (r : outcome Path) :
  h_getuser s = (Ok username, s1) ->
  h_home s1 = (r, s2) ->
  get_home_directory username s
  = (match r with Ok home => Ok (Some home) | Raise e => Raise e end, s2,
     [Called c_getuser; Called c_home]).
Proof.
  intros Hu Hh. unfold get_home_directory, bind, getuser, Path_home, ask_py, ret.
  rewrite Hu, String.eqb_refl, Hh. destruct r; reflexivity.
Qed.

(** C10: the name of another user goes into the path [/Users/<name>] as
    it is, whatever characters it holds; when the host says that this
    path exists and is a directory, it is the answer, and the directory
    service is not asked. *)
Theorem users_path_is_not_sanitized (username cu : string)
    (s s1 s2 s3 : host_state) :
  h_getuser s = (Ok cu, s1) ->
  username <> cu ->
  h_exists (path_of_string ("/Users/" ++ username)) s1 = (Done true, s2) ->
  h_is_dir (path_of_string ("/Users/" ++ username)) s2 = (Done true, s3) ->
  get_home_directory username s
  = (Ok (Some (path_of_string ("/Users/" ++ username))), s3,
     [Called c_getuser;
      Called (c_exists (path_of_string ("/Users/" ++ username)));
      Called (c_is_dir (path_of_string ("/Users/" ++ username)))]).
Proof.
  intros Hu Hne He Hd.
  unfold get_home_directory, bind, getuser, ask_py.
  rewrite Hu.
  replace (String.eqb username cu) with false
    by (symmetry; apply String.eqb_neq; assumption).
  unfold and_then, bind, exists_, is_dir, ask_os, ret.
  rewrite He, Hd. reflexivity.
Qed.

(** The block of step 3 lets no [Exception] out. *)
Lemma try_except_Exception A (m : M A) (a : A) (s s' : host_state)
    (e : exn) (l : list event) :
  try_except m is_Exception (ret a) s = (Raise e, s', l) ->
  is_Exception e = false.
Proof.
  unfold try_except, ret.
  destruct (m s) as [[[x|e1] s1] l1].
  - intros Q; inversion Q.
  - destruct (is_Exception e1) eqn:Ee.
    + intros Q; inversion Q.
    + intros Q; inversion Q; subst. assumption.
Qed.

(** Once the first two steps have failed, the failures of the
    directory-service query end in [None]: a process that cannot be
    run, a non-zero exit status, and an output in which the scan finds
    no directory.  Whatever the query does, no [Exception] leaves the
    function. *)
Lemma query_failure_is_not_found (username cu : string)
    (s s1 s2 : host_state) (l2 : list event) :
  h_getuser s = (Ok cu, s1) ->
  username <> cu ->
  dir_check (path_of_string ("/Users/" ++ username)) s1 = (Ok false, s2, l2) ->
  (query_failure username s2 ->
   exists s3 l, get_home_directory username s = (Ok None, s3, l))
  /\ (forall e s3 l,
         get_home_directory username s = (Raise e, s3, l) ->
         is_Exception e = false).
Proof.
  intros Hu Hne Hc.
  assert (Eu : getuser s = (Ok cu, s1, [Called c_getuser]))
    by (unfold getuser, ask_py; rewrite Hu; reflexivity).
  unfold get_home_directory. rewrite (bind_ok _ Eu).
  replace (String.eqb username cu) with false
    by (symmetry; apply String.eqb_neq; assumption).
  unfold dir_check in Hc. rewrite (bind_ok _ Hc).
  match goal with
  | |- context [try_except ?m is_Exception (ret None) s2] => set (body := m)
  end.
  split.
  - intros Hq.
    assert (Hbody : exists s3 l,
               body s2 = (Ok None, s3, l)
               \/ exists e, body s2 = (Raise e, s3, l) /\ is_Exception e = true).
    { unfold body.
      destruct Hq as [e s' Hr He | r s' Hr Hrc | r s' Hr Hno].
      - assert (Er : subprocess_run (dscl_argv username) s2
                     = (Raise e, s', [Called (c_run (dscl_argv username))]))
          by (unfold subprocess_run; rewrite Hr; reflexivity).
        rewrite (bind_raise _ Er). eexists _, _.
        right. exists e. split; [reflexivity|assumption].
      - assert (Er : subprocess_run (dscl_argv username) s2
                     = (Ok r, s', [Called (c_run (dscl_argv username))]))
          by (unfold subprocess_run; rewrite Hr; reflexivity).
        rewrite (bind_ok _ Er).
        replace (returncode r =? 0) with false
          by (symmetry; apply Z.eqb_neq; assumption).
        exists s', ([Called (c_run (dscl_argv username))] ++ []).
        left. reflexivity.
      - assert (Er : subprocess_run (dscl_argv username) s2
                     = (Ok r, s', [Called (c_run (dscl_argv username))]))
          by (unfold subprocess_run; rewrite Hr; reflexivity).
        rewrite (bind_ok _ Er).
        destruct (returncode r =? 0).
        + destruct (scan_lines_fails Hno) as (s3 & l & [E|(e & E & He)]);
            rewrite E; exists s3, ([Called (c_run (dscl_argv username))] ++ l).
          * left. reflexivity.
          * right. exists e. split; [reflexivity|assumption].
        + exists s', ([Called (c_run (dscl_argv username))] ++ []).
          left. reflexivity. }
    destruct Hbody as (s3 & l & [E|(e & E & He)]); unfold try_except; rewrite E.
    + eexists _, _. reflexivity.
    + rewrite He. unfold ret. eexists _, _. reflexivity.
  - intros e s3 l.
    destruct (try_except body is_Exception (ret None) s2) as [[r s4] l4] eqn:Et.
    intros Q. inversion Q; subst.
    eapply try_except_Exception. eassumption.
Qed.

End Resolver.

(* ================================================================== *)
(** * The size accumulator and the reporter *)

Section Reporter.

Context {H : Host}.

Lemma printed_app l1 l2 : printed (l1 ++ l2) = printed l1 ++ printed l2.
Proof.
  induction l1 as [|[c|line] l1 IH]; cbn; [reflexivity | assumption |].
  rewrite IH. reflexivity.
Qed.

Lemma ask_os_silent A (c : call) (f : host_state -> os_result A * host_state)
    (s s' : host_state) (r : outcome A) (l : list event) :
  ask_os c f s = (r, s', l) -> printed l = [].
Proof.
  unfold ask_os. destruct (f s) as [[a|e] s1]; intros Q; inversion Q; reflexivity.
Qed.

Lemma attempt_ask_os A (c : call) (f : host_state -> os_result A * host_state)
    (s : host_state) :
  exists r s',
    attempt (ask_os c f) s = (Ok r, s', [Called c])
    /\ (forall e, r = Raise e -> is_OSError e = true)
    /\ (forall a, r = Ok a -> f s = (Done a, s')).
Proof.
  unfold attempt, ask_os. destruct (f s) as [[a|e] s1].
  - exists (Ok a), s1. repeat split; intros; congruence.
  - exists (Raise (OSError e)), s1. repeat split; intros x Q; inversion Q; reflexivity.
Qed.

(** The walk never raises by itself: it hands back the total reached, and
    the exception that ended it, which is an [OSError].  It prints
    nothing, and the total never decreases. *)
Lemma walk_loop_outcome (items : list Path) (stop : option errno) :
  forall total s,
  exists t esc s' l,
    walk_loop items stop total s = (Ok (t, esc), s', l)
    /\ (forall e, esc = Some e -> is_OSError e = true)
    /\ printed l = []
    /\ (sizes_not_negative -> total <= t).
Proof.
  induction items as [|item rest IH]; intros total s.
  - exists total, (option_map OSError stop), s, [].
    split; [reflexivity|]. split; [|split; [reflexivity | intros; lia]].
    intros e. destruct stop; cbn; intros Q; inversion Q; reflexivity.
  - cbn [walk_loop]. unfold is_file, stat_size.
    destruct (attempt_ask_os (c_is_file item) (h_is_file item) s)
      as (r & s1 & E & Hr & _).
    rewrite (bind_ok _ E).
    destruct r as [[|]|e].
    + destruct (attempt_ask_os (c_stat item) (h_stat_size item) s1)
        as (r2 & s2 & E2 & Hr2 & Hsz).
      rewrite (bind_ok _ E2).
      destruct r2 as [n|e].
      * destruct (IH (total + n) s2) as (t & esc & s3 & l & E3 & He & Hp & Hm).
        rewrite E3. eexists t, esc, s3, _. split; [reflexivity|].
        split; [assumption|]. split.
        -- rewrite !printed_app, Hp. reflexivity.
        -- intros Hs. specialize (Hm Hs).
           pose proof (Hs _ _ _ _ (Hsz n eq_refl)). lia.
      * rewrite (Hr2 e eq_refl).
        destruct (IH total s2) as (t & esc & s3 & l & E3 & He & Hp & Hm).
        rewrite E3. eexists t, esc, s3, _. split; [reflexivity|].
        split; [assumption|]. split; [|assumption].
        rewrite !printed_app, Hp. reflexivity.
    + destruct (IH total s1) as (t & esc & s3 & l & E3 & He & Hp & Hm).
      rewrite E3. eexists t, esc, s3, _. split; [reflexivity|].
      split; [assumption|]. split; [|assumption].
      rewrite !printed_app, Hp. reflexivity.
    + eexists total, (Some e), s1, _. split; [reflexivity|].
      split; [|split; [reflexivity | intros; lia]].
      intros e0 Q. inversion Q; subst. apply Hr. reflexivity.
Qed.

(** What [get_dir_size] does once its two unguarded checks have answered:
    it returns a size, and a size that is not negative. *)
Lemma get_dir_size_after_checks (path : Path) (s s1 : host_state) (ex : bool) :
  h_exists path s = (Done ex, s1) ->
  (ex = true -> exists f s2, h_is_file path s1 = (Done f, s2)) ->
  exists n s' l,
    get_dir_size path s = (Ok n, s', l)
    /\ printed l = []
    /\ (ex = false -> n = 0)
    /\ (sizes_not_negative -> 0 <= n).
Proof.
  intros He Hf.
  assert (Ee : exists_ path s = (Ok ex, s1, [Called (c_exists path)]))
    by (unfold exists_, ask_os; rewrite He; reflexivity).
  unfold get_dir_size. rewrite (bind_ok _ Ee).
  destruct ex; cbn [negb].
  - destruct (Hf eq_refl) as (f & s2 & Hfile).
    assert (Ef : is_file path s1 = (Ok f, s2, [Called (c_is_file path)]))
      by (unfold is_file, ask_os; rewrite Hfile; reflexivity).
    rewrite (bind_ok _ Ef).
    destruct f.
    + unfold try_except, stat_size, ask_os, ret.
      destruct (h_stat_size path s2) as [[n|e] s3] eqn:Es.
      * eexists n, s3, _. split; [reflexivity|]. split; [reflexivity|].
        split; [discriminate|]. intros Hs. eapply Hs. eassumption.
      * cbn [is_OSError]. eexists 0, s3, _. split; [reflexivity|].
        split; [reflexivity|]. split; [discriminate | intros; lia].
    + destruct (h_rglob path s2) as [[items stop] s3] eqn:Eg.
      assert (Er : rglob path s2 = (Ok (items, stop), s3, [Called (c_rglob path)]))
        by (unfold rglob, ask; rewrite Eg; reflexivity).
      rewrite (bind_ok _ Er). cbv beta iota.
      destruct (walk_loop_outcome items stop 0 s3)
        as (t & esc & s4 & l & E & Hesc & Hp & Hm).
      rewrite (bind_ok _ E). cbv beta iota.
      destruct esc as [e|].
      * rewrite (Hesc e eq_refl). unfold ret.
        eexists t, s4, _. split; [reflexivity|].
        split; [|split; [discriminate|assumption]].
        cbn. rewrite !printed_app, Hp. reflexivity.
      * unfold ret. eexists t, s4, _. split; [reflexivity|].
        split; [|split; [discriminate|assumption]].
        cbn. rewrite !printed_app, Hp. reflexivity.
  - unfold ret. eexists 0, s1, _. split; [reflexivity|].
    split; [reflexivity|]. split; [reflexivity | intros; lia].
Qed.

(** A path that does not exist has size 0. *)
Lemma get_dir_size_nonexistent (path : Path) (s s1 : host_state) :
  h_exists path s = (Done false, s1) ->
  get_dir_size path s = (Ok 0, s1, [Called (c_exists path)]).
Proof.
  intros He.
  assert (Ee : exists_ path s = (Ok false, s1, [Called (c_exists path)]))
    by (unfold exists_, ask_os; rewrite He; reflexivity).
  unfold get_dir_size. rewrite (bind_ok _ Ee). reflexivity.
Qed.

(** The first check is not guarded: when it fails, so does the function. *)
Lemma get_dir_size_propagates (path : Path) (s s1 : host_state) (e : errno) :
  h_exists path s = (Failed e, s1) ->
  get_dir_size path s = (Raise (OSError e), s1, [Called (c_exists path)]).
Proof.
  intros He.
  assert (Ee : exists_ path s = (Raise (OSError e), s1, [Called (c_exists path)]))
    by (unfold exists_, ask_os; rewrite He; reflexivity).
  unfold get_dir_size. rewrite (bind_raise _ Ee). reflexivity.
Qed.

Lemma get_dir_size_silent (path : Path) (s s' : host_state) (r : outcome Z)
    (l : list event) :
  get_dir_size path s = (r, s', l) -> printed l = [].
Proof.
  unfold get_dir_size, exists_, is_file.
  intros Q.
  destruct (ask_os (c_exists path) (h_exists path) s) as [[[ex|e] s1] l1] eqn:E1.
  2:{ rewrite (bind_raise _ E1) in Q. inversion Q; subst.
      eapply ask_os_silent. eassumption. }
  pose proof (ask_os_silent _ _ _ E1) as P1.
  rewrite (bind_ok _ E1) in Q.
  destruct ex; cbn [negb] in Q.
  2:{ inversion Q; subst. rewrite printed_app, P1. reflexivity. }
  destruct (ask_os (c_is_file path) (h_is_file path) s1) as [[[f|e] s2] l2] eqn:E2.
  2:{ rewrite (bind_raise _ E2) in Q. inversion Q; subst.
      rewrite printed_app, P1. eapply ask_os_silent. eassumption. }
  pose proof (ask_os_silent _ _ _ E2) as P2.
  rewrite (bind_ok _ E2) in Q.
  destruct f.
  - unfold try_except, stat_size, ret in Q.
    destruct (ask_os (c_stat path) (h_stat_size path) s2) as [[[n|e] s3] l3] eqn:E3;
      pose proof (ask_os_silent _ _ _ E3) as P3.
    + inversion Q; subst. rewrite !printed_app, P1, P2, P3. reflexivity.
    + destruct (is_OSError e); inversion Q; subst;
        rewrite !printed_app, P1, P2, ?printed_app, P3; reflexivity.
  - destruct (h_rglob path s2) as [[items stop] s3] eqn:Eg.
    assert (Er : rglob path s2 = (Ok (items, stop), s3, [Called (c_rglob path)]))
      by (unfold rglob, ask; rewrite Eg; reflexivity).
    rewrite (bind_ok _ Er) in Q. cbv beta iota in Q.
    destruct (walk_loop_outcome items stop 0 s3)
      as (t & esc & s4 & l4 & E & Hesc & Hp & _).
    rewrite (bind_ok _ E) in Q. cbv beta iota in Q.
    destruct esc as [e|].
    + rewrite (Hesc e eq_refl) in Q. inversion Q; subst.
      rewrite !printed_app, P1, P2. cbn. rewrite !printed_app, Hp. reflexivity.
    + inversion Q; subst.
      rewrite !printed_app, P1, P2. cbn. rewrite !printed_app, Hp. reflexivity.
Qed.

(** One turn of the loop over the categories, for a path that exists and
    has size 0. *)
Lemma categories_loop_empty (label : string) (path : Path)
    (rest : list (string * Path)) (total : Z) (found : bool)
    (s s1 s2 : host_state) (l : list event) :
  h_exists path s = (Done true, s1) ->
  get_dir_size path s1 = (Ok 0, s2, l) ->
  categories_loop ((label, path) :: rest) total found s
  = match categories_loop rest total true s2 with
    | (r, s3, l3) => (r, s3, [Called (c_exists path)] ++ l ++ l3)
    end.
Proof.
  intros He Hs.
  assert (Ee : exists_ path s = (Ok true, s1, [Called (c_exists path)]))
    by (unfold exists_, ask_os; rewrite He; reflexivity).
  cbn [categories_loop]. rewrite (bind_ok _ Ee). rewrite (bind_ok _ Hs).
  cbn [Z.ltb Z.compare].
  destruct (categories_loop rest total true s2) as [[r s3] l3]. reflexivity.
Qed.

Lemma categories_loop_absent (label : string) (path : Path)
    (rest : list (string * Path)) (total : Z) (found : bool)
    (s s1 : host_state) :
  h_exists path s = (Done false, s1) ->
  categories_loop ((label, path) :: rest) total found s
  = match categories_loop rest total found s1 with
    | (r, s3, l3) => (r, s3, [Called (c_exists path)] ++ l3)
    end.
Proof.
  intros He.
  assert (Ee : exists_ path s = (Ok false, s1, [Called (c_exists path)]))
    by (unfold exists_, ask_os; rewrite He; reflexivity).
  cbn [categories_loop]. rewrite (bind_ok _ Ee). reflexivity.
Qed.

Lemma categories_loop_only_empty (dirs : list (string * Path))
    (s : host_state) (found : bool) :
  only_empty_data dirs s found ->
  forall total found0,
  exists s' l,
    categories_loop dirs total found0 s = (Ok (total, found0 || found), s', l)
    /\ printed l = [].
Proof.
  induction 1 as [s | label path rest s s1 found He Hrest IH
                    | label path rest s s1 s2 l found He Hs Hrest IH];
    intros total found0.
  - exists s, []. rewrite orb_false_r. split; reflexivity.
  - rewrite (@categories_loop_absent label path rest total found0 s s1 He).
    destruct (IH total found0) as (s' & l' & E & P). rewrite E.
    eexists _, _. split; [reflexivity|]. cbn. assumption.
  - rewrite (@categories_loop_empty label path rest total found0 s s1 s2 l He Hs).
    destruct (IH total true) as (s' & l' & E & P). rewrite E.
    eexists _, _. split; [rewrite orb_true_r; reflexivity|].
    cbn. rewrite printed_app, P, (get_dir_size_silent _ _ Hs). reflexivity.
Qed.

Lemma scan_lines_silent (lines : list string) :
  forall s r s' l, scan_lines lines s = (r, s', l) -> printed l = [].
Proof.
  induction lines as [|line rest IH]; intros s r s' l.
  - cbn. intros Q; inversion Q; reflexivity.
  - cbn [scan_lines]. unfold contains, split_once_snd.
    destruct (after_first NFS_HOME_DIR_KEY line) as [value|]; [|apply IH].
    rewrite bind_lift_ok. unfold and_then, exists_, is_dir.
    set (p := path_of_string (strip value)).
    destruct (ask_os (c_exists p) (h_exists p) s) as [[[ex|e] s1] l1] eqn:E1;
      pose proof (ask_os_silent _ _ _ E1) as P1.
    2:{ rewrite (bind_raise _ (bind_raise _ E1)). intros Q; inversion Q; subst.
        assumption. }
    destruct ex.
    + destruct (ask_os (c_is_dir p) (h_is_dir p) s1) as [[[d|e] s2] l2] eqn:E2;
        pose proof (ask_os_silent _ _ _ E2) as P2.
      * assert (Ec : bind (ask_os (c_exists p) (h_exists p))
                       (fun x => if x then ask_os (c_is_dir p) (h_is_dir p)
                                 else ret false) s = (Ok d, s2, l1 ++ l2))
          by (rewrite (bind_ok _ E1), E2; reflexivity).
        rewrite (bind_ok _ Ec).
        destruct d.
        -- unfold ret. intros Q; inversion Q; subst.
           rewrite !printed_app, P1, P2. reflexivity.
        -- destruct (scan_lines rest s2) as [[r3 s3] l3] eqn:E3.
           intros Q; inversion Q; subst.
           rewrite !printed_app, P1, P2, (IH _ _ _ _ E3). reflexivity.
      * assert (Ec : bind (ask_os (c_exists p) (h_exists p))
                       (fun x => if x then ask_os (c_is_dir p) (h_is_dir p)
                                 else ret false) s
                     = (Raise e, s2, l1 ++ l2))
          by (rewrite (bind_ok _ E1), E2; reflexivity).
        rewrite (bind_raise _ Ec). intros Q; inversion Q; subst.
        rewrite printed_app, P1, P2. reflexivity.
    + assert (Ec : bind (ask_os (c_exists p) (h_exists p))
                     (fun x => if x then ask_os (c_is_dir p) (h_is_dir p)
                               else ret false) s = (Ok false, s1, l1 ++ []))
        by (rewrite (bind_ok _ E1); reflexivity).
      rewrite (bind_ok _ Ec).
      destruct (scan_lines rest s1) as [[r3 s3] l3] eqn:E3.
      intros Q; inversion Q; subst.
      rewrite !printed_app, P1, (IH _ _ _ _ E3). reflexivity.
Qed.

(** ** Reports *)

Lemma silent_ret A (a : A) : silent (ret a).
Proof. intros s r s' l Q. inversion Q. reflexivity. Qed.

Lemma silent_ask A (c : call) (f : host_state -> A * host_state) :
  silent (ask c f).
Proof.
  intros s r s' l. unfold ask. destruct (f s). intros Q; inversion Q; reflexivity.
Qed.

Lemma silent_ask_py A (c : call) (f : host_state -> outcome A * host_state) :
  silent (ask_py c f).
Proof.
  intros s r s' l. unfold ask_py. destruct (f s). intros Q; inversion Q; reflexivity.
Qed.

Lemma silent_ask_os A (c : call) (f : host_state -> os_result A * host_state) :
  silent (ask_os c f).
Proof. intros s r s' l Q. eapply ask_os_silent. eassumption. Qed.

Lemma silent_bind A B (m : M A) (k : A -> M B) :
  silent m -> (forall a, silent (k a)) -> silent (bind m k).
Proof.
  intros Hm Hk s r s' l. unfold bind.
  destruct (m s) as [[[a|e] s1] l1] eqn:E1.
  - destruct (k a s1) as [[r2 s2] l2] eqn:E2. intros Q; inversion Q; subst.
    rewrite printed_app, (Hm _ _ _ _ E1), (Hk _ _ _ _ _ E2). reflexivity.
  - intros Q; inversion Q; subst. eapply Hm. eassumption.
Qed.

Lemma silent_try_except A (m handler : M A) (classes : exn -> bool) :
  silent m -> silent handler -> silent (try_except m classes handler).
Proof.
  intros Hm Hh s r s' l. unfold try_except.
  destruct (m s) as [[[a|e] s1] l1] eqn:E1.
  - intros Q; inversion Q; subst. eapply Hm. eassumption.
  - destruct (classes e).
    + destruct (handler s1) as [[r2 s2] l2] eqn:E2. intros Q; inversion Q; subst.
      rewrite printed_app, (Hm _ _ _ _ E1), (Hh _ _ _ _ E2). reflexivity.
    + intros Q; inversion Q; subst. eapply Hm. eassumption.
Qed.

Lemma silent_scan_lines lines : silent (scan_lines lines).
Proof. intros s r s' l. apply scan_lines_silent. Qed.

Lemma get_home_directory_silent username : silent (get_home_directory username).
Proof.
  unfold get_home_directory.
  apply silent_bind; [apply silent_ask_py|]. intros cu.
  destruct (String.eqb username cu).
  - apply silent_bind; [apply silent_ask_py | intros; apply silent_ret].
  - apply silent_bind.
    + apply silent_bind; [apply silent_ask_os|].
      intros [|]; [apply silent_ask_os | apply silent_ret].
    + intros [|]; [apply silent_ret|].
      apply silent_try_except; [|apply silent_ret].
      apply silent_bind.
      * intros s r s' l. unfold subprocess_run.
        destruct (h_run (dscl_argv username) s). intros Q; inversion Q; reflexivity.
      * intros r. destruct (returncode r =? 0);
          [apply silent_scan_lines | apply silent_ret].
Qed.

Lemma bind_print B (line : string) (k : unit -> M B) (s : host_state) :
  bind (print line) k s
  = match k tt s with (r, s2, l2) => (r, s2, Printed line :: l2) end.
Proof. unfold bind, print. destruct (k tt s) as [[r s2] l2]. reflexivity. Qed.

(** C4: a category path that exists with a computed size of 0 sets the
    found flag, prints nothing and leaves the total as it is; a user all
    of whose existing category paths have size 0, one of them at least
    existing, gets the section head and the total line "0B": no category
    line and no no-data notice. *)
Theorem empty_data_is_found_but_not_listed :
  (forall (label : string) (path : Path) (rest : list (string * Path))
          (total : Z) (found : bool) (s s1 s2 : host_state) (l : list event),
      h_exists path s = (Done true, s1) ->
      get_dir_size path s1 = (Ok 0, s2, l) ->
      categories_loop ((label, path) :: rest) total found s
      = match categories_loop rest total true s2 with
        | (r, s3, l3) => (r, s3, [Called (c_exists path)] ++ l ++ l3)
        end
      /\ printed ([Called (c_exists path)] ++ l) = [])
  /\ (forall (username : string) (home : Path) (s s1 : host_state)
             (l1 : list event),
         get_home_directory username s = (Ok (Some home), s1, l1) ->
         only_empty_data (edge_dirs home) s1 true ->
         exists s' l,
           calculate_edge_storage username s = (Ok true, s', l)
           /\ printed l = section_head username ++ section_total "0B"%string).
Proof.
  split.
  - intros label path rest total found s s1 s2 l He Hs. split.
    + eapply categories_loop_empty; eassumption.
    + cbn. eapply get_dir_size_silent. eassumption.
  - intros username home s s1 l1 Hh Hd.
    unfold calculate_edge_storage. rewrite (bind_ok _ Hh).
    rewrite !bind_print.
    destruct (categories_loop_only_empty Hd 0 false) as (s2 & l2 & E & P).
    rewrite (bind_ok _ E). cbv beta iota. cbn [orb negb].
    rewrite bind_print.
    change (format_bytes 0) with (@Ok string "0B"%string). rewrite bind_lift_ok.
    rewrite !bind_print. unfold ret.
    eexists _, _. split; [reflexivity|].
    rewrite printed_app, (get_home_directory_silent _ _ Hh).
    cbn [printed app]. rewrite printed_app, P. reflexivity.
Qed.

(** When the resolver finds no home directory, the report is one line
    naming the user, and the result is [False]. *)
Lemma report_not_found (username : string) (s s1 : host_state)
    (l1 : list event) :
  get_home_directory username s = (Ok None, s1, l1) ->
  calculate_edge_storage username s
  = (Ok false, s1, l1 ++ [Printed (not_found_line username)]).
Proof.
  intros Hh. unfold calculate_edge_storage. rewrite (bind_ok _ Hh).
  rewrite bind_print. reflexivity.
Qed.

(** When the home directory is found and no category path exists, the
    report is the no-data notice and the result is [True]. *)
Lemma report_no_data (username : string) (home : Path) (s s1 : host_state)
    (l1 : list event) :
  get_home_directory username s = (Ok (Some home), s1, l1) ->
  only_empty_data (edge_dirs home) s1 false ->
  exists s' l,
    calculate_edge_storage username s = (Ok true, s', l)
    /\ printed l = section_head username ++ [no_data_line username].
Proof.
  intros Hh Hd.
  unfold calculate_edge_storage. rewrite (bind_ok _ Hh).
  rewrite !bind_print.
  destruct (categories_loop_only_empty Hd 0 false) as (s2 & l2 & E & P).
  rewrite (bind_ok _ E). cbv beta iota. cbn [orb negb].
  rewrite bind_print. unfold ret.
  eexists _, _. split; [reflexivity|].
  rewrite printed_app, (get_home_directory_silent _ _ Hh).
  cbn [printed app]. rewrite printed_app, P. reflexivity.
Qed.

(** Whenever the report returns, it returns [False] exactly when the
    resolver found no home directory. *)
Lemma report_result (username : string) (s s' : host_state) (b : bool)
    (l : list event) :
  calculate_edge_storage username s = (Ok b, s', l) ->
  exists h s1 l1,
    get_home_directory username s = (Ok h, s1, l1)
    /\ (b = false <-> h = None).
Proof.
  unfold calculate_edge_storage.
  destruct (get_home_directory username s) as [[[h|e] s1] l1] eqn:Hh.
  2:{ rewrite (bind_raise _ Hh). discriminate. }
  rewrite (bind_ok _ Hh). intros Q. exists h, s1, l1. split; [reflexivity|].
  destruct h as [home|].
  - rewrite !bind_print in Q.
    destruct (categories_loop (edge_dirs home) 0 false s1)
      as [[[[total found]|e] s2] l2] eqn:E.
    2:{ rewrite (bind_raise _ E) in Q. discriminate. }
    rewrite (bind_ok _ E) in Q. cbv beta iota in Q.
    destruct found; cbn [negb] in Q.
    + rewrite bind_print in Q.
      destruct (format_bytes total) as [text|e] eqn:F.
      * rewrite bind_lift_ok, !bind_print in Q. unfold ret in Q.
        inversion Q; subst. split; discriminate.
      * unfold bind, lift in Q. discriminate.
    + rewrite bind_print in Q. unfold ret in Q. inversion Q; subst.
      split; discriminate.
  - rewrite bind_print in Q. unfold ret in Q. inversion Q; subst.
    split; reflexivity.
Qed.

(** ** [main] *)

(** A user without home directory does not stop the loop. *)
Lemma for_each_user_not_found (username : string) (rest : list string)
    (s s1 : host_state) (l1 : list event) :
  get_home_directory username s = (Ok None, s1, l1) ->
  for_each_user (username :: rest) s
  = match for_each_user rest s1 with
    | (r, s2, l2) =>
        (r, s2, (l1 ++ [Printed (not_found_line username)]) ++ l2)
    end.
Proof.
  intros Hh. cbn [for_each_user].
  rewrite (bind_ok _ (@report_not_found username s s1 l1 Hh)). reflexivity.
Qed.

Lemma for_each_user_none_resolves (usernames : list string) (s : host_state) :
  none_resolves usernames s ->
  exists s' l,
    for_each_user usernames s = (Ok tt, s', l)
    /\ printed l = map not_found_line usernames.
Proof.
  induction 1 as [s | username rest s s1 l1 Hh Hrest IH].
  - exists s, []. split; reflexivity.
  - rewrite (@for_each_user_not_found username rest s s1 l1 Hh).
    destruct IH as (s' & l & E & P). rewrite E.
    eexists _, _. split; [reflexivity|].
    rewrite !printed_app, (get_home_directory_silent _ _ Hh), P. reflexivity.
Qed.

(** On any other system than Darwin the script prints one line and exits
    with status 1, having asked the host for nothing but the system's
    name. *)
Lemma main_unsupported_platform (argv : list string) (s s1 : host_state)
    (system : string) :
  h_system s = (system, s1) ->
  system <> "Darwin"%string ->
  main argv s
  = (Raise (SystemExit 1), s1,
     [Called c_system;
      Printed (RED ++ "Error: This script is designed for macOS only" ++ NC)]).
Proof.
  intros Hs Hne. unfold main.
  assert (E : platform_system s = (Ok system, s1, [Called c_system]))
    by (unfold platform_system, ask; rewrite Hs; reflexivity).
  rewrite (bind_ok _ E).
  replace (String.eqb system "Darwin") with false
    by (symmetry; apply String.eqb_neq; assumption).
  cbn [negb]. rewrite bind_print. reflexivity.
Qed.

(** On Darwin, with user names on the command line none of which has a
    home directory, every name gets its line, in order, and the exit
    status is 0. *)
Lemma main_none_resolves (prog : string) (usernames : list string)
    (s s1 : host_state) :
  h_system s = ("Darwin"%string, s1) ->
  usernames <> [] ->
  none_resolves usernames s1 ->
  exists s' l,
    main (prog :: usernames) s = (Ok tt, s', l)
    /\ exit_status (Ok tt) = 0
    /\ printed l = banner ++ map not_found_line usernames ++ [""%string].
Proof.
  intros Hs Hne Hn. unfold main.
  assert (E : platform_system s = (Ok "Darwin"%string, s1, [Called c_system]))
    by (unfold platform_system, ask; rewrite Hs; reflexivity).
  rewrite (bind_ok _ E). rewrite String.eqb_refl. cbn [negb].
  rewrite !bind_print.
  destruct usernames as [|u us]; [contradiction|].
  cbn [List.length Nat.leb tl].
  assert (Er : @ret H (list string) (u :: us) s1 = (Ok (u :: us), s1, []))
    by reflexivity.
  rewrite (bind_ok _ Er).
  destruct (for_each_user_none_resolves Hn) as (s2 & l2 & E2 & P2).
  rewrite (bind_ok _ E2). unfold print.
  eexists _, _. split; [reflexivity|]. split; [reflexivity|].
  cbn [printed app]. rewrite !printed_app, P2. reflexivity.
Qed.

End Reporter.

(* ================================================================== *)
(** * Directory sizes on the tree host *)

Lemma zsum_app l1 l2 : zsum (l1 ++ l2) = zsum l1 + zsum l2.
Proof.
  unfold zsum. induction l1 as [|x l1 IH]; cbn; [reflexivity | rewrite IH; lia].
Qed.

Lemma zsum_map_add A (f g : A -> Z) l :
  zsum (map f l) + zsum (map g l) = zsum (map (fun x => f x + g x) l).
Proof. unfold zsum. induction l as [|x l IH]; cbn; [reflexivity | lia]. Qed.

Lemma zsum_map_ext A (f g : A -> Z) l :
  (forall x, In x l -> f x = g x) -> zsum (map f l) = zsum (map g l).
Proof.
  unfold zsum. induction l as [|x l IH]; intros Hfg; cbn; [reflexivity|].
  rewrite (Hfg x (or_introl eq_refl)), IH; [reflexivity|].
  intros y Hy. apply Hfg. right. assumption.
Qed.

(** ** Path resolution *)

Lemma resolve_nil links fs cur : resolve links fs cur [] = Done cur.
Proof. destruct links; reflexivity. Qed.

Lemma resolve_cons links fs cur c rest :
  resolve links fs cur (c :: rest)
  = match cur with
    | Dir access es :: up =>
        if negb access then Failed EACCES
        else if String.eqb c ".." then
          resolve links fs (match up with [] => cur | _ => up end) rest
        else if (NAME_MAX <? String.length c)%nat then Failed ENAMETOOLONG
        else
          match lookup_entry c es with
          | None => Failed ENOENT
          | Some (Symlink t) =>
              match links with
              | O => Failed ELOOP
              | S k =>
                  resolve k fs
                    (if String.eqb (root t) "" then cur else [fs])
                    (parts t ++ rest)
              end
          | Some nd => resolve links fs (nd :: cur) rest
          end
    | _ => Failed ENOTDIR
    end.
Proof. destruct links; reflexivity. Qed.

(** Resolving a longer path goes through the place the shorter one
    leads to. *)
Lemma resolve_app fs links :
  forall cur comps st,
    resolve links fs cur comps = Done st ->
    exists links', forall more,
      resolve links fs cur (comps ++ more) = resolve links' fs st more.
Proof.
  induction links as [|k IHk].
  - intros cur comps. revert cur.
    induction comps as [|c rest IH]; intros cur st Hr.
    + rewrite resolve_nil in Hr. inversion Hr; subst. exists O. reflexivity.
    + rewrite resolve_cons in Hr. cbn [app].
      destruct cur as [|[n|access es|t|] up]; try discriminate.
      destruct (negb access) eqn:Ea; [discriminate|].
      destruct (String.eqb c "..") eqn:Ed.
      * destruct (IH _ _ Hr) as [l' Hl']. exists l'. intros more.
        rewrite resolve_cons, Ea, Ed. apply Hl'.
      * destruct (NAME_MAX <? String.length c)%nat eqn:En; [discriminate|].
        destruct (lookup_entry c es) as [[n|a2 es2|t|]|] eqn:El; try discriminate;
          destruct (IH _ _ Hr) as [l' Hl']; exists l'; intros more;
          rewrite resolve_cons, Ea, Ed, En, El; apply Hl'.
  - intros cur comps. revert cur.
    induction comps as [|c rest IH]; intros cur st Hr.
    + rewrite resolve_nil in Hr. inversion Hr; subst. exists (S k). reflexivity.
    + rewrite resolve_cons in Hr. cbn [app].
      destruct cur as [|[n|access es|t|] up]; try discriminate.
      destruct (negb access) eqn:Ea; [discriminate|].
      destruct (String.eqb c "..") eqn:Ed.
      * destruct (IH _ _ Hr) as [l' Hl']. exists l'. intros more.
        rewrite resolve_cons, Ea, Ed. apply Hl'.
      * destruct (NAME_MAX <? String.length c)%nat eqn:En; [discriminate|].
        destruct (lookup_entry c es) as [[n|a2 es2|t|]|] eqn:El; try discriminate.
        -- destruct (IH _ _ Hr) as [l' Hl']; exists l'; intros more;
             rewrite resolve_cons, Ea, Ed, En, El; apply Hl'.
        -- destruct (IH _ _ Hr) as [l' Hl']; exists l'; intros more;
             rewrite resolve_cons, Ea, Ed, En, El; apply Hl'.
        -- destruct (IHk _ _ _ Hr) as [l' Hl']. exists l'. intros more.
           rewrite resolve_cons, Ea, Ed, En, El.
           rewrite app_assoc. apply Hl'.
        -- destruct (IH _ _ Hr) as [l' Hl']; exists l'; intros more;
             rewrite resolve_cons, Ea, Ed, En, El; apply Hl'.
Qed.

Lemma lookup_entry_in name nd es :
  distinct (map fst es) = true ->
  In (name, nd) es -> lookup_entry name es = Some nd.
Proof.
  induction es as [|[n0 nd0] es IH]; intros Hd Hin; [contradiction|].
  cbn [map fst distinct] in Hd. apply andb_prop in Hd. destruct Hd as [Hn Hd].
  cbn [lookup_entry]. destruct Hin as [Heq|Hin].
  - inversion Heq; subst. rewrite String.eqb_refl. reflexivity.
  - destruct (String.eqb name n0) eqn:E.
    + apply String.eqb_eq in E. subst n0. exfalso.
      apply negb_true_iff in Hn.
      assert (existsb (String.eqb name) (map fst es) = true).
      { apply existsb_exists. exists name. split; [|apply String.eqb_refl].
        change name with (fst (name, nd)). apply in_map. assumption. }
      congruence.
    + apply IH; assumption.
Qed.

(** The entry [name] of the directory at [q], when it is no link, is
    what the path [q/name] leads to. *)
Lemma stat_child m q es up name nd :
  t_stat m q = Done (Dir true es :: up) ->
  distinct (map fst es) = true ->
  good_name name = true ->
  In (name, nd) es ->
  match nd with
  | Symlink _ => True
  | _ => t_stat m (child q name) = Done (nd :: Dir true es :: up)
  end.
Proof.
  intros Hq Hd Hg Hin. unfold t_stat in *. cbn [child parts].
  destruct (@resolve_app _ _ _ _ _ Hq) as [l' Hl'].
  pose proof (@lookup_entry_in name nd es Hd Hin) as El.
  unfold good_name in Hg. apply andb_prop in Hg. destruct Hg as [G1 G2].
  apply negb_true_iff in G1. apply negb_true_iff in G2.
  destruct nd; [| |exact I|]; rewrite Hl', resolve_cons; cbn [negb];
    rewrite G1, G2, El, resolve_nil; reflexivity.
Qed.

(** ** The walk *)

(** What the two calls made for an item of the walk answer. *)
Lemma is_file_link_size m q :
  match t_is_file m q with
  | Done true => t_stat_size m q = Done (link_size m q)
  | Done false => link_size m q = 0
  | Failed _ => True
  end.
Proof.
  unfold t_is_file, t_predicate, t_stat_size, link_size.
  destruct (t_stat m q) as [[|[n|a es|t|] up]|e]; try reflexivity.
  destruct (m_lenient m || ignored_errno e); [reflexivity | exact I].
Qed.

Lemma walk_loop_tree m items :
  forall total,
    forallb (fun q => match t_is_file m q with Failed _ => false | _ => true end)
            items = true ->
    exists l,
      @walk_loop (tree_host m) items None total tt
      = (Ok (total + zsum (map (link_size m) items), None), tt, l).
Proof.
  induction items as [|item rest IH]; intros total Hok.
  - exists []. cbn. rewrite Z.add_0_r. reflexivity.
  - cbn [forallb] in Hok. apply andb_prop in Hok. destruct Hok as [Hi Hrest].
    pose proof (is_file_link_size m item) as Hl.
    cbn [walk_loop map]. unfold zsum. cbn [fold_right]. fold (zsum (map (link_size m) rest)).
    unfold bind at 1. unfold attempt at 1. unfold is_file, ask_os.
    cbn [h_is_file tree_host].
    destruct (t_is_file m item) as [[|]|e]; [| |discriminate].
    + unfold bind at 1. unfold attempt at 1. unfold stat_size, ask_os.
      cbn [h_stat_size tree_host]. rewrite Hl.
      destruct (IH (total + link_size m item) Hrest) as [l E]. rewrite E.
      eexists. rewrite <- Z.add_assoc. reflexivity.
    + destruct (IH total Hrest) as [l E]. rewrite E, Hl, Z.add_0_l.
      eexists. reflexivity.
Qed.

Lemma zsum_flat_map A B (h : B -> Z) (f : A -> list B) l :
  zsum (map h (flat_map f l)) = zsum (map (fun x => zsum (map h (f x))) l).
Proof.
  induction l as [|x l IH]; [reflexivity|].
  cbn [flat_map map]. rewrite map_app, zsum_app, IH. reflexivity.
Qed.

Lemma tidy_dir a es :
  tidy (Dir a es) = true ->
  distinct (map fst es) = true
  /\ (forall name nd, In (name, nd) es -> good_name name = true /\ tidy nd = true).
Proof.
  cbn [tidy]. intros Ht.
  apply andb_prop in Ht. destruct Ht as [Ht H3].
  apply andb_prop in Ht. destruct Ht as [H1 H2].
  split; [assumption|]. intros name nd Hin. split.
  - rewrite forallb_forall in H2. apply H2.
    change name with (fst (name, nd)). apply in_map. assumption.
  - rewrite forallb_forall in H3. apply (H3 (name, nd)). assumption.
Qed.

(** The sizes met along the walk add up to the size of the tree. *)
Lemma subtree_sum m nd :
  forall q up,
    t_stat m q = Done (nd :: up) ->
    tidy nd = true ->
    zsum (map (link_size m) (subtree_paths q nd)) = tree_size m q nd.
Proof.
  induction nd as [n|a es IH|t|] using node_induction;
    intros q up Hq Ht; try reflexivity.
  destruct a; [|reflexivity].
  destruct (@tidy_dir true es Ht) as [Hd Hes].
  cbn [subtree_paths tree_size]. rewrite map_app, zsum_app. f_equal.
  - rewrite map_map. apply zsum_map_ext. intros [name sub] Hin. cbn [fst snd].
    destruct (Hes _ _ Hin) as [Hg _].
    pose proof (@stat_child m q es up name sub Hq Hd Hg Hin) as Hc.
    unfold entry_size, link_size.
    destruct sub; try rewrite Hc; reflexivity.
  - rewrite zsum_flat_map. apply zsum_map_ext. intros [name sub] Hin.
    destruct (Hes _ _ Hin) as [Hg Hts].
    pose proof (@stat_child m q es up name sub Hq Hd Hg Hin) as Hc.
    rewrite Forall_forall in IH. specialize (IH _ Hin). cbn [snd] in IH.
    destruct sub; try reflexivity.
    eapply IH; eassumption.
Qed.

(** Without links, the size of the tree is the sum of its regular files. *)
Lemma link_free_tree_size m nd :
  forall q,
    link_free nd = true ->
    entry_size m q nd + tree_size m q nd = regular_size nd.
Proof.
  induction nd as [n|a es IH|t|] using node_induction; intros q Hf;
    try reflexivity; try discriminate.
  - cbn. lia.
  - destruct a; [|reflexivity].
    cbn [entry_size tree_size regular_size]. rewrite zsum_map_add, Z.add_0_l.
    apply zsum_map_ext. intros [name sub] Hin. cbn [fst snd].
    rewrite Forall_forall in IH. specialize (IH _ Hin). cbn [snd] in IH.
    apply IH. cbn [link_free] in Hf. rewrite forallb_forall in Hf.
    apply (Hf (name, sub)). assumption.
Qed.

(** C2, as amended: for an existing directory whose walk meets no failing
    status check, the size is the sum, over the entries of the directory
    and of the listable real directories below it, of the size of each
    regular file and of the regular file each link leads to; directories,
    special files, and links that lead elsewhere or nowhere add nothing.
    On a tree without links this is the sum of the regular files. *)
Theorem get_dir_size_of_directory (m : machine) (p : Path) (a : bool)
    (es : list (string * node)) (up : list node) :
  t_stat m p = Done (Dir a es :: up) ->
  tidy (Dir a es) = true ->
  walk_unhindered m p (Dir a es) = true ->
  fst (run_on m (get_dir_size p)) = Ok (tree_size m p (Dir a es))
  /\ (link_free (Dir a es) = true ->
      tree_size m p (Dir a es) = regular_size (Dir a es)).
Proof.
  intros Hp Ht Hw. split.
  - unfold run_on, get_dir_size.
    assert (Ee : @exists_ (tree_host m) p tt = (Ok true, tt, [Called (c_exists p)])).
    { unfold exists_, ask_os. cbn [h_exists tree_host].
      unfold t_exists, t_predicate. rewrite Hp. reflexivity. }
    rewrite (bind_ok _ Ee). cbn [negb].
    assert (Ef : @is_file (tree_host m) p tt = (Ok false, tt, [Called (c_is_file p)])).
    { unfold is_file, ask_os. cbn [h_is_file tree_host].
      unfold t_is_file, t_predicate. rewrite Hp. reflexivity. }
    rewrite (bind_ok _ Ef).
    assert (Eg : @rglob (tree_host m) p tt
                 = (Ok (subtree_paths p (Dir a es), None), tt, [Called (c_rglob p)])).
    { unfold rglob, ask. cbn [h_rglob tree_host]. unfold t_rglob. rewrite Hp.
      reflexivity. }
    rewrite (bind_ok _ Eg). cbv beta iota.
    destruct (walk_loop_tree m (subtree_paths p (Dir a es)) 0 Hw) as [l E].
    rewrite (bind_ok _ E). cbv beta iota. unfold ret. cbn [fst].
    rewrite Z.add_0_l. f_equal. eapply subtree_sum; eassumption.
  - intros Hf. rewrite <- (link_free_tree_size m (Dir a es) p Hf). reflexivity.
Qed.

Lemma get_dir_size_of_directory_witness :
  fst (run_on sample (get_dir_size (path_of_string "/Volumes/carol/Library")))
  = Ok 3060
  /\ regular_size
       (Dir true
          [ ("Preferences", Dir true [ ("com.microsoft.edgemac.plist", File 500) ]);
            ("Caches", Dir true
               [ ("Microsoft Edge", Dir true
                    [ ("index", File 1024);
                      ("blobs", Dir true [ ("b0", File 1536); ("b1", File 0) ]);
                      ("sock", Special) ]) ]) ]%string) = 3060.
Proof.
  pose proof (@get_dir_size_of_directory sample
                (path_of_string "/Volumes/carol/Library") true _ _
                ltac:(reflexivity) ltac:(reflexivity) ltac:(reflexivity))
    as [E R].
  split; [exact E | reflexivity].
Defined.

(** C2, as stated, fails on a directory that holds one link to a regular
    file of 5000 bytes and no file of its own: the size computed is 5000,
    the sum of the regular files of the tree is 0. *)
Lemma get_dir_size_counts_link_targets :
  t_stat sample (path_of_string "/tmp/links")
  = Done [ Dir true [ ("to_big"%string, Symlink (path_of_string "/tmp/big")) ];
           Dir true
             [ ("big"%string, File 5000);
               ("links"%string,
                Dir true [ ("to_big"%string, Symlink (path_of_string "/tmp/big")) ]) ];
           sample_fs ]
  /\ fst (run_on sample (get_dir_size (path_of_string "/tmp/links"))) = Ok 5000
  /\ regular_size
       (Dir true [ ("to_big"%string, Symlink (path_of_string "/tmp/big")) ]) = 0.
Proof. repeat split; vm_compute; reflexivity. Qed.

(* ================================================================== *)
(** * Runs on the sample machine *)

Open Scope string_scope.

Lemma current_user_resolves_directly_witness :
  @get_home_directory (tree_host sample) "alice" tt
  = (Ok (Some (path_of_string "/Users/alice")), tt,
     [Called c_getuser; Called c_home]).
Proof.
  apply (@current_user_resolves_directly (tree_host sample) "alice" tt tt tt
           (Ok (path_of_string "/Users/alice")));
    reflexivity.
Defined.

(** The name ["../tmp"] is taken as it is: the path composed is
    [/Users/../tmp], which is the directory [/tmp], outside [/Users]. *)
Lemma users_path_is_not_sanitized_witness :
  @get_home_directory (tree_host sample) "../tmp" tt
  = (Ok (Some (mkPath "/" ["Users"; ".."; "tmp"])), tt,
     [Called c_getuser;
      Called (c_exists (mkPath "/" ["Users"; ".."; "tmp"]));
      Called (c_is_dir (mkPath "/" ["Users"; ".."; "tmp"]))])
  /\ path_str (path_of_string ("/Users/" ++ "../tmp")) = "/Users/../tmp"
  /\ t_stat sample (path_of_string "/Users/../tmp")
     = t_stat sample (path_of_string "/tmp").
Proof.
  split; [|split; reflexivity].
  apply (@users_path_is_not_sanitized (tree_host sample) "../tmp" "alice"
           tt tt tt tt);
    [reflexivity | discriminate | reflexivity | reflexivity].
Defined.

(** Four failures of the query, each ending in [None]: no [dscl]
    binary, a non-zero exit status, an output without the field, and a
    field that names no directory. *)
Lemma query_failure_is_not_found_witness :
  (exists s3 l,
      @get_home_directory (tree_host sample_no_dscl) "dave" tt = (Ok None, s3, l))
  /\ (exists s3 l,
         @get_home_directory (tree_host sample) "dave" tt = (Ok None, s3, l))
  /\ (exists s3 l,
         @get_home_directory (tree_host sample) "erin" tt = (Ok None, s3, l))
  /\ (exists s3 l,
         @get_home_directory (tree_host sample) "frank" tt = (Ok None, s3, l)).
Proof.
  split; [|split; [|split]].
  - refine (proj1 (@query_failure_is_not_found (tree_host sample_no_dscl)
                     "dave" "alice" tt tt tt
                     [Called (c_exists (path_of_string "/Users/dave"))]
                     eq_refl _ eq_refl) _); [discriminate|].
    apply (@spawn_failure (tree_host sample_no_dscl) "dave" tt (OSError ENOENT) tt);
      reflexivity.
  - refine (proj1 (@query_failure_is_not_found (tree_host sample)
                     "dave" "alice" tt tt tt
                     [Called (c_exists (path_of_string "/Users/dave"))]
                     eq_refl _ eq_refl) _); [discriminate|].
    apply (@nonzero_exit (tree_host sample) "dave" tt (mkCompleted 56 "") tt);
      [reflexivity | discriminate].
  - refine (proj1 (@query_failure_is_not_found (tree_host sample)
                     "erin" "alice" tt tt tt
                     [Called (c_exists (path_of_string "/Users/erin"))]
                     eq_refl _ eq_refl) _); [discriminate|].
    apply (@no_directory (tree_host sample) "erin" tt
             (mkCompleted 0 ("No such key: NFSHomeDirectory" ++ LF)) tt);
      [reflexivity|].
    apply sf_other; [reflexivity | apply sf_nil].
  - refine (proj1 (@query_failure_is_not_found (tree_host sample)
                     "frank" "alice" tt tt tt
                     [Called (c_exists (path_of_string "/Users/frank"))]
                     eq_refl _ eq_refl) _); [discriminate|].
    apply (@no_directory (tree_host sample) "frank" tt
             (mkCompleted 0 ("NFSHomeDirectory: /Volumes/gone" ++ LF)) tt);
      [reflexivity|].
    apply (@sf_no_directory (tree_host sample)
             "NFSHomeDirectory: /Volumes/gone" " /Volumes/gone" [] tt tt
             [Called (c_exists (path_of_string "/Volumes/gone"))]);
      [reflexivity | reflexivity | apply sf_nil].
Defined.

Lemma alice_has_only_empty_data :
  @only_empty_data (tree_host sample)
    (edge_dirs (path_of_string "/Users/alice")) tt true.
Proof.
  eapply oed_absent; [reflexivity|].
  eapply oed_empty; [reflexivity | reflexivity |].
  repeat (eapply oed_absent; [reflexivity|]).
  apply oed_nil.
Defined.

Lemma empty_data_is_found_but_not_listed_witness :
  exists s' l,
    @calculate_edge_storage (tree_host sample) "alice" tt = (Ok true, s', l)
    /\ printed l = (section_head "alice" ++ section_total "0B")%list.
Proof.
  apply (proj2 (@empty_data_is_found_but_not_listed (tree_host sample))
           "alice" (path_of_string "/Users/alice") tt tt
           [Called c_getuser; Called c_home]);
    [reflexivity | exact alice_has_only_empty_data].
Defined.


(** C7 fails on the code: for a home directory with a blank in its name
    [dscl] writes the key on one line and the value on the next.  The
    line with the key then has an empty value, [Path("")] is the current
    directory, which exists and is a directory, and [get_home_directory]
    returns it: the user counts as found, with [.] for a home, where the
    claim has the function return nothing for an output it cannot read.
    The report goes on to look for Edge data below the current
    directory and returns [True]. *)
Theorem blank_answer_is_taken_for_the_current_directory :
  m_dscl sample_blank_name (dscl_argv "john")
  = Ok (mkCompleted 0 ("NFSHomeDirectory:" ++ LF
                       ++ " /Volumes/Data Disk/john" ++ LF))
  /\ splitlines ("NFSHomeDirectory:" ++ LF ++ " /Volumes/Data Disk/john" ++ LF)
     = ["NFSHomeDirectory:"; " /Volumes/Data Disk/john"]
  /\ run_on sample_blank_name (get_home_directory "john")
     = (Ok (Some (path_of_string "")),
        [Called c_getuser;
         Called (c_exists (path_of_string "/Users/john"));
         Called (c_run (dscl_argv "john"));
         Called (c_exists (path_of_string ""));
         Called (c_is_dir (path_of_string ""))])
  /\ path_str (path_of_string "") = "."
  /\ fst (run_on sample_blank_name (calculate_edge_storage "john")) = Ok true
  /\ printed (snd (run_on sample_blank_name (calculate_edge_storage "john")))
     = (section_head "john" ++ [no_data_line "john"])%list.
Proof. repeat split; vm_compute; reflexivity. Qed.

(** C5 fails on the code under Python 3.13 and earlier: the first check,
    [path.exists()], stands outside every [try].  For a path with a
    component of 300 bytes it raises [OSError] (name too long), for a
    path behind a directory closed to the user it raises
    [PermissionError]; [get_dir_size] raises with it.  Under Python 3.14
    the same call returns 0. *)
Theorem get_dir_size_raises_when_exists_fails :
  fst (run_on sample (get_dir_size (path_of_string ("/" ++ long_name))))
  = Raise (OSError ENAMETOOLONG)
  /\ fst (run_on sample
            (get_dir_size
               (path_of_string "/Users/bob/Library/Caches/Microsoft Edge")))
     = Raise (OSError EACCES)
  /\ fst (run_on sample_lenient
            (get_dir_size
               (path_of_string "/Users/bob/Library/Caches/Microsoft Edge")))
     = Ok 0.
Proof. repeat split; vm_compute; reflexivity. Qed.

(** C3 fails on the code under Python 3.13 and earlier: for a user whose
    home directory resolves and whose [Library] is closed to the caller,
    and for a user name of 300 bytes, the report neither returns [True]
    nor [False]: it raises. *)
Theorem report_raises_when_a_check_fails :
  fst (run_on sample (get_home_directory "bob"))
  = Ok (Some (path_of_string "/Users/bob"))
  /\ fst (run_on sample (calculate_edge_storage "bob")) = Raise (OSError EACCES)
  /\ fst (run_on sample (calculate_edge_storage long_name))
     = Raise (OSError ENAMETOOLONG).
Proof. repeat split; vm_compute; reflexivity. Qed.

(** C8 fails on the code under Python 3.13 and earlier: on Darwin, with
    the names dave, bob and alice, the run ends in bob's section with an
    uncaught [PermissionError]: the exit status is 1 and alice is never
    reported on; with a name of 300 bytes before alice, it ends after
    the banner with an uncaught [OSError].  Under Python 3.14 the first
    run reports on all three and ends with status 0. *)
Theorem main_stops_when_a_check_fails :
  let r := run_on sample (main ["edge-storage-usage.py"; "dave"; "bob"; "alice"]) in
  let r' := run_on sample_lenient
              (main ["edge-storage-usage.py"; "dave"; "bob"; "alice"]) in
  let r'' := run_on sample (main ["edge-storage-usage.py"; long_name; "alice"]) in
  fst r = Raise (OSError EACCES)
  /\ exit_status (fst r) = 1
  /\ printed (snd r)
     = (banner ++ [not_found_line "dave"] ++ section_head "bob")%list
  /\ fst r'' = Raise (OSError ENAMETOOLONG)
  /\ exit_status (fst r'') = 1
  /\ printed (snd r'') = banner
  /\ exit_status (fst r') = 0
  /\ printed (snd r')
     = (banner ++ [not_found_line "dave"]
        ++ section_head "bob" ++ [no_data_line "bob"]
        ++ section_head "alice" ++ section_total "0B" ++ [""])%list.
Proof. repeat split; vm_compute; reflexivity. Qed.

Close Scope string_scope.

(* ================================================================== *)
(** * More on the size accumulator *)

Section Accumulator.

Context {H : Host}.

(** X1: for a path that exists and is a regular file, the size is the one
    [stat] reports, and 0 when [stat] fails; the host is asked three
    times and no more. *)
Theorem get_dir_size_of_regular_file (path : Path) (s s1 s2 s3 : host_state)
    (r : os_result Z) :
  h_exists path s = (Done true, s1) ->
  h_is_file path s1 = (Done true, s2) ->
  h_stat_size path s2 = (r, s3) ->
  get_dir_size path s
  = (Ok (match r with Done n => n | Failed _ => 0 end), s3,
     [Called (c_exists path); Called (c_is_file path); Called (c_stat path)]).
Proof.
  intros He Hf Hs.
  assert (Ee : exists_ path s = (Ok true, s1, [Called (c_exists path)]))
    by (unfold exists_, ask_os; rewrite He; reflexivity).
  assert (Ef : is_file path s1 = (Ok true, s2, [Called (c_is_file path)]))
    by (unfold is_file, ask_os; rewrite Hf; reflexivity).
  unfold get_dir_size. rewrite (bind_ok _ Ee). cbn [negb].
  rewrite (bind_ok _ Ef).
  unfold try_except, stat_size, ask_os, ret. rewrite Hs.
  destruct r as [n|e]; reflexivity.
Qed.

(** The walk over a list of items that ends normally goes on with the
    items that follow. *)
Lemma walk_loop_prefix (before more : list Path) (stop : option errno) :
  forall total s t s' l,
    walk_loop before None total s = (Ok (t, None), s', l) ->
    walk_loop (before ++ more) stop total s
    = match walk_loop more stop t s' with
      | (r, s'', l') => (r, s'', l ++ l')
      end.
Proof.
  induction before as [|item rest IH]; intros total s t s' l Hw.
  - cbn in Hw. inversion Hw; subst. cbn [app].
    destruct (walk_loop more stop t s') as [[r s''] l']. reflexivity.
  - cbn [app walk_loop] in *.
    destruct (attempt_ask_os (c_is_file item) (h_is_file item) s)
      as (f & s1 & E & _ & _).
    unfold is_file in *. rewrite (bind_ok _ E) in Hw. rewrite (bind_ok _ E).
    destruct f as [[|]|e].
    + destruct (attempt_ask_os (c_stat item) (h_stat_size item) s1)
        as (r2 & s2 & E2 & _ & _).
      unfold stat_size in *. rewrite (bind_ok _ E2) in Hw. rewrite (bind_ok _ E2).
      destruct r2 as [n|e].
      * destruct (walk_loop rest None (total + n) s2) as [[[[t0 esc]|e0] s3] l3] eqn:Er;
          inversion Hw; subst.
        rewrite (IH _ _ _ _ _ Er).
        destruct (walk_loop more stop t s') as [[r s''] l'].
        rewrite <- ?app_assoc. reflexivity.
      * destruct (is_OSError e).
        -- destruct (walk_loop rest None total s2) as [[[[t0 esc]|e0] s3] l3] eqn:Er;
             inversion Hw; subst.
           rewrite (IH _ _ _ _ _ Er).
           destruct (walk_loop more stop t s') as [[r s''] l'].
           rewrite <- ?app_assoc. reflexivity.
        -- inversion Hw.
    + destruct (walk_loop rest None total s1) as [[[[t0 esc]|e0] s3] l3] eqn:Er;
        inversion Hw; subst.
      rewrite (IH _ _ _ _ _ Er).
      destruct (walk_loop more stop t s') as [[r s''] l'].
      rewrite <- ?app_assoc. reflexivity.
    + inversion Hw.
Qed.

(** X2: when [item.is_file()] fails in the middle of the walk, the size
    returned is the total reached before that item: the items after it
    are neither looked at nor counted. *)
Theorem walk_ends_at_failing_check (path item : Path)
    (before after : list Path) (stop : option errno)
    (s s1 s2 s3 s4 s5 : host_state) (t : Z) (l4 : list event) (e : errno) :
  h_exists path s = (Done true, s1) ->
  h_is_file path s1 = (Done false, s2) ->
  h_rglob path s2 = ((before ++ item :: after, stop), s3) ->
  walk_loop before None 0 s3 = (Ok (t, None), s4, l4) ->
  h_is_file item s4 = (Failed e, s5) ->
  get_dir_size path s
  = (Ok t, s5,
     [Called (c_exists path); Called (c_is_file path); Called (c_rglob path)]
     ++ l4 ++ [Called (c_is_file item)]).
Proof.
  intros He Hf Hg Hw Hi.
  assert (Ee : exists_ path s = (Ok true, s1, [Called (c_exists path)]))
    by (unfold exists_, ask_os; rewrite He; reflexivity).
  assert (Ef : is_file path s1 = (Ok false, s2, [Called (c_is_file path)]))
    by (unfold is_file, ask_os; rewrite Hf; reflexivity).
  assert (Er : rglob path s2
               = (Ok (before ++ item :: after, stop), s3, [Called (c_rglob path)]))
    by (unfold rglob, ask; rewrite Hg; reflexivity).
  assert (Ew : walk_loop (before ++ item :: after) stop 0 s3
               = (Ok (t, Some (OSError e)), s5, l4 ++ [Called (c_is_file item)])).
  { rewrite (@walk_loop_prefix before (item :: after) stop _ _ _ _ _ Hw).
    cbn [walk_loop].
    assert (Ea : attempt (is_file item) s4
                 = (Ok (Raise (OSError e)), s5, [Called (c_is_file item)]))
      by (unfold attempt, is_file, ask_os; rewrite Hi; reflexivity).
    rewrite (bind_ok _ Ea). unfold ret. rewrite app_nil_r. reflexivity. }
  unfold get_dir_size. rewrite (bind_ok _ Ee). cbn [negb].
  rewrite (bind_ok _ Ef). rewrite (bind_ok _ Er). cbv beta iota.
  rewrite (bind_ok _ Ew). cbv beta iota. cbn [is_OSError]. unfold ret.
  rewrite app_nil_r. reflexivity.
Qed.

(** X3: neither the accumulator nor the resolver writes to standard output,
    whatever the host answers and however they end. *)
Theorem helpers_never_print (path : Path) (username : string) (s : host_state) :
  printed (snd (get_dir_size path s)) = []
  /\ printed (snd (get_home_directory username s)) = [].
Proof.
  split.
  - destruct (get_dir_size path s) as [[r s'] l] eqn:E.
    exact (get_dir_size_silent _ _ E).
  - destruct (get_home_directory username s) as [[r s'] l] eqn:E.
    exact (get_home_directory_silent _ _ E).
Qed.

(** X4: an exception leaves [get_dir_size] only from one of its first two
    checks, [path.exists()] and [path.is_file()], and it is the
    [OSError] of that check; everything after them is caught.  When it
    returns, the size is not negative on a host that reports none. *)
Theorem get_dir_size_raises_only_from_its_checks (path : Path)
    (s s' : host_state) (r : outcome Z) (l : list event) :
  get_dir_size path s = (r, s', l) ->
  match r with
  | Ok n => sizes_not_negative -> 0 <= n
  | Raise e =>
      exists en, e = OSError en
        /\ (h_exists path s = (Failed en, s')
            \/ exists s1, h_exists path s = (Done true, s1)
                          /\ h_is_file path s1 = (Failed en, s'))
  end.
Proof.
  intros E.
  destruct (h_exists path s) as [[ex|en] s1] eqn:He.
  - destruct ex.
    + destruct (h_is_file path s1) as [[f|en] s2] eqn:Hf.
      * destruct (@get_dir_size_after_checks H path s s1 true He
                    (fun _ => ex_intro _ f (ex_intro _ s2 Hf)))
          as (n & s'' & l' & E' & _ & _ & Hn).
        rewrite E' in E. inversion E; subst. exact Hn.
      * assert (Ee : exists_ path s = (Ok true, s1, [Called (c_exists path)]))
          by (unfold exists_, ask_os; rewrite He; reflexivity).
        assert (Ef : is_file path s1
                     = (Raise (OSError en), s2, [Called (c_is_file path)]))
          by (unfold is_file, ask_os; rewrite Hf; reflexivity).
        unfold get_dir_size in E. rewrite (bind_ok _ Ee) in E. cbn [negb] in E.
        rewrite (bind_raise _ Ef) in E. inversion E; subst.
        exists en. split; [reflexivity|]. right. exists s1.
        split; [reflexivity | assumption].
    + rewrite (get_dir_size_nonexistent _ _ He) in E. inversion E; subst.
      intros _. lia.
  - rewrite (get_dir_size_propagates _ _ He) in E. inversion E; subst.
    exists en. split; [reflexivity|]. left. reflexivity.
Qed.

End Accumulator.

(* ================================================================== *)
(** * The answer of the directory service *)

Section Query.

Context {H : Host}.

Lemma scan_lines_passed_over (before more : list string)
    (s s' : host_state) (l : list event) :
  passed_over before s s' l ->
  scan_lines (before ++ more) s
  = match scan_lines more s' with (r, s'', l') => (r, s'', l ++ l') end.
Proof.
  induction 1 as [s | line rest s s' l Hc _ IH
                    | line value rest s s1 s' l1 l Ha Hd _ IH].
  - cbn [app]. destruct (scan_lines more s) as [[r s''] l']. reflexivity.
  - cbn [app scan_lines]. rewrite Hc. exact IH.
  - cbn [app scan_lines]. unfold contains, split_once_snd. rewrite Ha.
    rewrite bind_lift_ok. unfold dir_check in Hd. rewrite (bind_ok _ Hd).
    rewrite IH. destruct (scan_lines more s') as [[r s''] l'].
    rewrite app_assoc. reflexivity.
Qed.

(** X5: for a user who is neither the current one nor at home in
    [/Users/<name>], when the query exits with status 0 the answer is
    the value of the first line of its output that holds the key and
    whose value, stripped, names an existing directory: the lines before
    it are passed over, those after it are not read, and nothing else is
    asked of the host. *)
Theorem query_answer_is_used (username cu : string)
    (s s1 s2 s3 s4 s5 s6 : host_state) (l2 l4 : list event) (r : completed)
    (before after : list string) (line value : string) :
  h_getuser s = (Ok cu, s1) ->
  username <> cu ->
  dir_check (path_of_string ("/Users/" ++ username)) s1 = (Ok false, s2, l2) ->
  h_run (dscl_argv username) s2 = (Ok r, s3) ->
  returncode r = 0 ->
  splitlines (stdout r) = before ++ line :: after ->
  passed_over before s3 s4 l4 ->
  after_first NFS_HOME_DIR_KEY line = Some value ->
  h_exists (path_of_string (strip value)) s4 = (Done true, s5) ->
  h_is_dir (path_of_string (strip value)) s5 = (Done true, s6) ->
  get_home_directory username s
  = (Ok (Some (path_of_string (strip value))), s6,
     Called c_getuser :: l2
     ++ Called (c_run (dscl_argv username)) :: l4
     ++ [Called (c_exists (path_of_string (strip value)));
         Called (c_is_dir (path_of_string (strip value)))]).
Proof.
  intros Hu Hne Hc Hr Hrc Hl Hp Ha He Hd.
  assert (Eu : getuser s = (Ok cu, s1, [Called c_getuser]))
    by (unfold getuser, ask_py; rewrite Hu; reflexivity).
  assert (Er : subprocess_run (dscl_argv username) s2
               = (Ok r, s3, [Called (c_run (dscl_argv username))]))
    by (unfold subprocess_run; rewrite Hr; reflexivity).
  set (p := path_of_string (strip value)) in *.
  assert (Ec : and_then (exists_ p) (is_dir p) s4
               = (Ok true, s6, [Called (c_exists p); Called (c_is_dir p)])).
  { unfold and_then, bind, exists_, is_dir, ask_os. rewrite He, Hd. reflexivity. }
  assert (Es : scan_lines (line :: after) s4
               = (Ok (Some p), s6, [Called (c_exists p); Called (c_is_dir p)])).
  { cbn [scan_lines]. unfold contains, split_once_snd. rewrite Ha.
    rewrite bind_lift_ok. fold p. rewrite (bind_ok _ Ec). unfold ret.
    rewrite app_nil_r. reflexivity. }
  unfold get_home_directory. rewrite (bind_ok _ Eu).
  replace (String.eqb username cu) with false
    by (symmetry; apply String.eqb_neq; assumption).
  unfold dir_check in Hc. rewrite (bind_ok _ Hc).
  unfold try_except. rewrite (bind_ok _ Er). rewrite Hrc. cbn [Z.eqb].
  rewrite Hl, (scan_lines_passed_over _ Hp), Es.
  reflexivity.
Qed.

(** X6: an exception of class [Exception] leaves [get_home_directory]
    only from the calls that stand before the [try]: [getpass.getuser()]
    at line 80, [Path.home()] at line 83 for the current user, and, for
    another user, the check of [/Users/<name>] at line 87, whose
    exception is an [OSError].  Whatever the query of the directory
    service and the checks on its answer raise is caught. *)
Theorem resolver_raises_only_before_the_try (username : string)
    (s s' : host_state) (e : exn) (l : list event) :
  get_home_directory username s = (Raise e, s', l) ->
  is_Exception e = true ->
  h_getuser s = (Raise e, s')
  \/ (exists s1,
        h_getuser s = (Ok username, s1) /\ h_home s1 = (Raise e, s'))
  \/ (exists cu s1 l2,
        h_getuser s = (Ok cu, s1)
        /\ username <> cu
        /\ is_OSError e = true
        /\ dir_check (path_of_string ("/Users/" ++ username)) s1
           = (Raise e, s', l2)).
Proof.
  intros E He. unfold get_home_directory in E.
  destruct (h_getuser s) as [[cu|e0] s1] eqn:Hu.
  2:{ left.
      assert (Eu : getuser s = (Raise e0, s1, [Called c_getuser]))
        by (unfold getuser, ask_py; rewrite Hu; reflexivity).
      rewrite (bind_raise _ Eu) in E. inversion E; subst. reflexivity. }
  right.
  assert (Eu : getuser s = (Ok cu, s1, [Called c_getuser]))
    by (unfold getuser, ask_py; rewrite Hu; reflexivity).
  rewrite (bind_ok _ Eu) in E.
  destruct (String.eqb username cu) eqn:Eq.
  - left. apply String.eqb_eq in Eq. subst cu.
    unfold bind, Path_home, ask_py, ret in E.
    destruct (h_home s1) as [[home|e1] s2] eqn:Hh; inversion E; subst.
    exists s1. split; [reflexivity | assumption].
  - right.
    destruct (dir_check (path_of_string ("/Users/" ++ username)) s1)
      as [[[ok|e0] s2] l2] eqn:Ec; unfold dir_check in Ec.
    + rewrite (bind_ok _ Ec) in E. destruct ok.
      * unfold ret in E. inversion E.
      * match type of E with
        | context [try_except ?m is_Exception (ret None) s2] =>
            destruct (try_except m is_Exception (ret None) s2)
              as [[r s4] l4] eqn:Et
        end.
        inversion E; subst.
        apply try_except_Exception in Et. congruence.
    + rewrite (bind_raise _ Ec) in E. inversion E; subst.
      exists cu, s1, l2.
      split; [reflexivity|].
      split; [apply String.eqb_neq; assumption|].
      split; [eapply dir_check_raises; unfold dir_check; eassumption|].
      unfold dir_check. assumption.
Qed.

End Query.

(* ================================================================== *)
(** * What a report lists *)

Lemma format_bytes_returns b :
  b < 2 ^ 1053 -> format_bytes b = Ok (size_text b).
Proof.
  intros Hb. unfold size_text.
  destruct (bracket_cases b) as [[Hr _]|[[Hr _]|[[Hr _]|[Hr _]]]].
  - rewrite (format_bytes_B Hr). reflexivity.
  - rewrite (format_bytes_KB Hr). reflexivity.
  - rewrite (format_bytes_MB Hr). reflexivity.
  - rewrite (format_bytes_GB Hr).
    assert (Hl : Z.log2 (round53 b) < 1054)
      by (apply no_overflow_below; unfold GB in Hr; lia).
    destruct (1054 <=? Z.log2 (round53 b)) eqn:E; [|reflexivity].
    apply Z.leb_le in E. lia.
Qed.

Lemma listed_total_nonneg seen : 0 <= listed_total seen.
Proof.
  unfold listed_total, listed.
  induction seen as [|[label size] rest IH]; cbn; [lia|].
  destruct (0 <? size) eqn:E; [|assumption].
  apply Z.ltb_lt in E. cbn. unfold zsum in IH. lia.
Qed.

Section Listing.

Context {H : Host}.

Lemma categories_loop_seen (dirs : list (string * Path)) (s s' : host_state)
    (seen : list (string * Z)) :
  sizes_seen dirs s seen s' ->
  forall total found,
    0 <= total ->
    total + listed_total seen < 2 ^ 1053 ->
    exists l,
      categories_loop dirs total found s
      = (Ok (total + listed_total seen,
             match seen with [] => found | _ => true end), s', l)
      /\ printed l = listed_lines seen.
Proof.
  induction 1 as [s | label path rest s s1 s' seen He _ IH
                    | label path rest s s1 s2 s' l size seen He Hg _ IH];
    intros total found H0 Hb.
  - exists []. split; [|reflexivity].
    cbn. unfold ret, listed_total. cbn. rewrite Z.add_0_r. reflexivity.
  - destruct (IH total found H0 Hb) as (l3 & E & P).
    rewrite (@categories_loop_absent H label path rest total found s s1 He), E.
    eexists. split; [reflexivity|]. exact P.
  - assert (Ee : exists_ path s = (Ok true, s1, [Called (c_exists path)]))
      by (unfold exists_, ask_os; rewrite He; reflexivity).
    pose proof (get_dir_size_silent _ _ Hg) as Pg.
    pose proof (listed_total_nonneg seen) as Hn.
    cbn [categories_loop]. rewrite (bind_ok _ Ee), (bind_ok _ Hg).
    unfold listed_total, listed_lines, listed in *. cbn [filter snd] in *.
    destruct (0 <? size) eqn:Epos.
    + apply Z.ltb_lt in Epos. cbn [map zsum fold_right fst snd] in *.
      fold (zsum (map snd (filter (fun x => 0 <? snd x) seen))) in *.
      rewrite (@format_bytes_returns size) by lia.
      rewrite bind_lift_ok, bind_print.
      destruct (IH (total + size) true ltac:(lia) ltac:(lia)) as (l3 & E & P).
      rewrite E. eexists. split.
      * replace (total + (size + zsum (map snd (filter (fun x => 0 <? snd x) seen))))
          with (total + size + zsum (map snd (filter (fun x => 0 <? snd x) seen)))
          by lia.
        destruct seen; reflexivity.
      * rewrite !printed_app, Pg. cbn [printed app]. rewrite P. reflexivity.
    + destruct (IH total true H0 Hb) as (l3 & E & P).
      rewrite E. eexists. split.
      * destruct seen; reflexivity.
      * rewrite !printed_app, Pg. cbn [printed app]. exact P.
Qed.

(** X7: what a report shows for a user whose home directory resolves.
    Of the seven categories, in the order of the table, those whose path
    exists with a positive size get one line each, with the size as
    [format_bytes] writes it; the total line shows the sum of the sizes
    listed.  When no category path exists, the no-data notice takes the
    place of lines and total.  The report returns [True] in both
    cases. *)
Theorem report_lists_positive_sizes (username : string) (home : Path)
    (s s1 s2 : host_state) (l1 : list event) (seen : list (string * Z)) :
  get_home_directory username s = (Ok (Some home), s1, l1) ->
  sizes_seen (edge_dirs home) s1 seen s2 ->
  listed_total seen < 2 ^ 1053 ->
  exists l,
    calculate_edge_storage username s = (Ok true, s2, l)
    /\ printed l
       = section_head username
         ++ match seen with
            | [] => [no_data_line username]
            | _ => listed_lines seen
                   ++ section_total (size_text (listed_total seen))
            end.
Proof.
  intros Hh Hs Hb.
  destruct (categories_loop_seen Hs false (Z.le_refl 0) Hb) as (l2 & E & P).
  pose proof (get_home_directory_silent _ _ Hh) as Ph.
  unfold calculate_edge_storage. rewrite (bind_ok _ Hh).
  rewrite !bind_print. rewrite (bind_ok _ E). cbv beta iota.
  rewrite Z.add_0_l.
  destruct seen as [|x seen'].
  - cbn [negb]. rewrite bind_print. unfold ret.
    eexists. split; [reflexivity|].
    rewrite printed_app, Ph. cbn [printed app]. rewrite printed_app, P.
    reflexivity.
  - cbn [negb]. rewrite bind_print.
    rewrite (format_bytes_returns Hb), bind_lift_ok, !bind_print. unfold ret.
    eexists. split; [reflexivity|].
    rewrite printed_app, Ph. cbn [printed app]. rewrite printed_app, P.
    reflexivity.
Qed.

(** X8: the value a report returns can be read from what it printed:
    [False] goes with the one line that says the user was not found,
    [True] with a section that opens with the user's head. *)
Theorem report_result_matches_output (username : string)
    (s s' : host_state) (b : bool) (l : list event) :
  calculate_edge_storage username s = (Ok b, s', l) ->
  if b then exists rest, printed l = section_head username ++ rest
  else printed l = [not_found_line username].
Proof.
  intros E.
  destruct (report_result _ _ E) as (h & s1 & l1 & Hh & Hb).
  destruct h as [home|].
  - assert (b = true) as -> by (destruct b; [reflexivity|];
                                destruct Hb as [Hb _]; discriminate (Hb eq_refl)).
    unfold calculate_edge_storage in E. rewrite (bind_ok _ Hh) in E.
    rewrite !bind_print in E.
    match type of E with
    | context [bind ?m ?k s1] => destruct (bind m k s1) as [[r2 s2] l2]
    end.
    inversion E; subst.
    rewrite printed_app, (get_home_directory_silent _ _ Hh).
    exists (printed l2). reflexivity.
  - assert (b = false) as -> by (apply Hb; reflexivity).
    rewrite (@report_not_found H username s s1 l1 Hh) in E.
    inversion E; subst.
    rewrite printed_app, (get_home_directory_silent _ _ Hh). reflexivity.
Qed.

End Listing.

(* ================================================================== *)
(** * The run of [main] *)

Section Run.

Context {H : Host}.

Lemma for_each_user_reported (before more : list string)
    (s s' : host_state) (l : list event) :
  reported before s s' l ->
  for_each_user (before ++ more) s
  = match for_each_user more s' with (r, s'', l') => (r, s'', l ++ l') end.
Proof.
  induction 1 as [s | username rest s s1 s' b l1 l Hc _ IH].
  - cbn [app]. destruct (for_each_user more s) as [[r s''] l']. reflexivity.
  - cbn [app for_each_user]. rewrite (bind_ok _ Hc), IH.
    destruct (for_each_user more s') as [[r s''] l'].
    rewrite app_assoc. reflexivity.
Qed.

Lemma main_on_darwin (argv : list string) (s s1 : host_state) :
  h_system s = ("Darwin"%string, s1) ->
  main argv s
  = match
      bind (if (List.length argv <=? 1)%nat
            then bind getuser (fun u => ret [u])
            else ret (tl argv))
           (fun usernames =>
              bind (for_each_user usernames) (fun _ => print ""%string)) s1
    with
    | (r, s2, l2) => (r, s2, Called c_system :: map Printed banner ++ l2)
    end.
Proof.
  intros Hs. unfold main.
  assert (E : platform_system s = (Ok "Darwin"%string, s1, [Called c_system]))
    by (unfold platform_system, ask; rewrite Hs; reflexivity).
  rewrite (bind_ok _ E). rewrite String.eqb_refl. cbn [negb].
  rewrite !bind_print.
  match goal with
  | |- context [bind ?m ?k s1] => destruct (bind m k s1) as [[r s2] l2]
  end.
  reflexivity.
Qed.

(** X9: on Darwin, with names on the command line, [main] prints the
    banner, reports on every name in the order given, whatever each
    report returns, and ends with an empty line; the exit status is 0
    whether or not any user was found. *)
Theorem main_reports_users_in_turn (prog : string) (usernames : list string)
    (s s1 s2 : host_state) (l : list event) :
  h_system s = ("Darwin"%string, s1) ->
  usernames <> [] ->
  reported usernames s1 s2 l ->
  main (prog :: usernames) s
  = (Ok tt, s2,
     Called c_system :: map Printed banner ++ l ++ [Printed ""%string])
  /\ exit_status (fst (fst (main (prog :: usernames) s))) = 0.
Proof.
  intros Hs Hne Hr.
  assert (E : main (prog :: usernames) s
              = (Ok tt, s2,
                 Called c_system :: map Printed banner ++ l
                                 ++ [Printed ""%string])).
  { rewrite (@main_on_darwin (prog :: usernames) s s1 Hs).
    destruct usernames as [|u us]; [contradiction|].
    cbn [List.length Nat.leb tl].
    assert (Er : @ret H (list string) (u :: us) s1 = (Ok (u :: us), s1, []))
      by reflexivity.
    rewrite (bind_ok _ Er).
    pose proof (@for_each_user_reported (u :: us) [] s1 s2 l Hr) as Ef.
    rewrite app_nil_r in Ef. cbn [for_each_user] in Ef. unfold ret in Ef.
    rewrite app_nil_r in Ef.
    rewrite (bind_ok _ Ef). unfold print. reflexivity. }
  split; [exact E|]. rewrite E. reflexivity.
Qed.

(** X10: [main] has no handler.  When the report on one name raises,
    after the reports on the names before it have returned, [main] ends
    with that exception: the names after it are not looked at and the
    closing empty line is not printed.  For an exception of class
    [Exception] the exit status is 1. *)
Theorem main_has_no_handler (prog username : string)
    (before after : list string) (s s1 s2 s3 : host_state)
    (l l3 : list event) (e : exn) :
  h_system s = ("Darwin"%string, s1) ->
  reported before s1 s2 l ->
  calculate_edge_storage username s2 = (Raise e, s3, l3) ->
  main (prog :: before ++ username :: after) s
  = (Raise e, s3, Called c_system :: map Printed banner ++ l ++ l3)
  /\ (is_Exception e = true ->
      exit_status (fst (fst (main (prog :: before ++ username :: after) s)))
      = 1).
Proof.
  intros Hs Hr Hc.
  assert (E : main (prog :: before ++ username :: after) s
              = (Raise e, s3, Called c_system :: map Printed banner ++ l ++ l3)).
  { rewrite (@main_on_darwin (prog :: before ++ username :: after) s s1 Hs).
    assert (El : (List.length (prog :: before ++ username :: after) <=? 1)%nat
                 = false).
    { cbn [List.length]. rewrite length_app. cbn [List.length].
      apply Nat.leb_gt. lia. }
    rewrite El. cbn [tl].
    assert (Er : @ret H (list string) (before ++ username :: after) s1
                 = (Ok (before ++ username :: after), s1, [])) by reflexivity.
    rewrite (bind_ok _ Er).
    assert (Ef : for_each_user (before ++ username :: after) s1
                 = (Raise e, s3, l ++ l3)).
    { rewrite (@for_each_user_reported before (username :: after) s1 s2 l Hr).
      cbn [for_each_user]. rewrite (bind_raise _ Hc). reflexivity. }
    rewrite (bind_raise _ Ef). reflexivity. }
  split; [exact E|]. rewrite E. destruct e; (reflexivity || discriminate).
Qed.

(** X11: without arguments ([sys.argv] holds the script's name only, or
    nothing), [main] asks for the current user's name and reports on
    that one name. *)
Theorem main_defaults_to_current_user (argv : list string) (username : string)
    (s s1 s2 s3 : host_state) (b : bool) (l : list event) :
  h_system s = ("Darwin"%string, s1) ->
  (List.length argv <= 1)%nat ->
  h_getuser s1 = (Ok username, s2) ->
  calculate_edge_storage username s2 = (Ok b, s3, l) ->
  main argv s
  = (Ok tt, s3,
     Called c_system :: map Printed banner
     ++ Called c_getuser :: l ++ [Printed ""%string]).
Proof.
  intros Hs Hl Hu Hc.
  rewrite (@main_on_darwin argv s s1 Hs).
  replace (List.length argv <=? 1)%nat with true
    by (symmetry; apply Nat.leb_le; assumption).
  assert (Eu : bind getuser (fun u => @ret H (list string) [u]) s1
               = (Ok [username], s2, [Called c_getuser]))
    by (unfold bind, getuser, ask_py, ret; rewrite Hu; reflexivity).
  rewrite (bind_ok _ Eu).
  assert (Ef : for_each_user [username] s2 = (Ok tt, s3, l))
    by (cbn [for_each_user]; rewrite (bind_ok _ Hc); unfold ret;
        rewrite app_nil_r; reflexivity).
  rewrite (bind_ok _ Ef). unfold print. reflexivity.
Qed.

(** X12: on a system other than Darwin, [main] prints its one line of
    error and ends with exit status 1, whatever the arguments: the host
    was asked for the name of the system and nothing else, no user was
    looked up and no banner printed. *)
Theorem main_refuses_other_systems (argv : list string) (s : host_state) :
  fst (h_system s) <> "Darwin"%string ->
  main argv s
  = (Raise (SystemExit 1), snd (h_system s),
     [Called c_system;
      Printed (RED ++ "Error: This script is designed for macOS only" ++ NC)])
  /\ exit_status (fst (fst (main argv s))) = 1.
Proof.
  intros Hne. destruct (h_system s) as [system s1] eqn:Hs. cbn [fst snd] in *.
  pose proof (@main_unsupported_platform H argv s s1 system Hs Hne) as E.
  split; [exact E|]. rewrite E. reflexivity.
Qed.

End Run.

(* ================================================================== *)
(** * How close and how wide a rendered size is *)

(** X13: up to 2^53 bytes, the number [format_bytes] writes, read back
    from its text, is the count divided by the unit to within half a
    unit of the last digit written: within half a hundredth for KB, MB
    and GB, and exactly the count for B. *)
Theorem format_bytes_is_nearest_hundredth (b : Z) :
  0 <= b < 2 ^ 53 ->
  exists rd,
    shown b = Some rd
    /\ 2 * Z.abs (10 ^ Z.of_nat (r_places rd) * b - unit_of b * r_number rd)
       <= unit_of b.
Proof.
  intros Hb. unfold unit_of.
  destruct (bracket_cases b) as [[Hr _]|[[Hr _]|[[Hr _]|[Hr _]]]].
  - rewrite (shown_B Hr). eexists. split; [reflexivity|].
    replace (b <? KB) with true by (symmetry; apply Z.ltb_lt; lia).
    cbn [r_places r_number Z.of_nat]. rewrite Z.pow_0_r. lia.
  - rewrite (shown_KB Hr). eexists. split; [reflexivity|].
    replace (b <? KB) with false by (symmetry; apply Z.ltb_ge; lia).
    replace (b <? MB) with true by (symmetry; apply Z.ltb_lt; lia).
    cbn [r_places r_number].
    change (10 ^ Z.of_nat 2) with 100.
    apply round_half_even_nearest. reflexivity.
  - rewrite (shown_MB Hr). eexists. split; [reflexivity|].
    replace (b <? KB) with false
      by (symmetry; apply Z.ltb_ge; unfold KB, MB in *; lia).
    replace (b <? MB) with false by (symmetry; apply Z.ltb_ge; lia).
    replace (b <? GB) with true by (symmetry; apply Z.ltb_lt; lia).
    cbn [r_places r_number].
    change (10 ^ Z.of_nat 2) with 100.
    apply round_half_even_nearest. reflexivity.
  - rewrite (shown_GB Hr).
    assert (Hs : round53 b = b) by (apply round53_small; lia).
    rewrite Hs.
    assert (Hl : Z.log2 b < 53) by (apply Z.log2_lt_pow2; unfold GB in Hr; lia).
    replace (1054 <=? Z.log2 b) with false by (symmetry; apply Z.leb_gt; lia).
    eexists. split; [reflexivity|].
    replace (b <? KB) with false
      by (symmetry; apply Z.ltb_ge; unfold KB, GB in *; lia).
    replace (b <? MB) with false
      by (symmetry; apply Z.ltb_ge; unfold MB, GB in *; lia).
    replace (b <? GB) with false by (symmetry; apply Z.ltb_ge; lia).
    cbn [r_places r_number].
    change (10 ^ Z.of_nat 2) with 100.
    apply round_half_even_nearest. reflexivity.
Qed.

Lemma string_length_app (a b : string) :
  String.length (a ++ b) = (String.length a + String.length b)%nat.
Proof.
  induction a as [|c a IH]; cbn [append String.length plus];
    [reflexivity | f_equal; exact IH].
Qed.

Lemma spaces_length n : String.length (spaces n) = n.
Proof.
  unfold spaces.
  induction n as [|n IH]; cbn [repeat_string append String.length];
    [reflexivity | f_equal; exact IH].
Qed.

Lemma ljust_length s w :
  (String.length s <= w)%nat -> String.length (ljust s w) = w.
Proof.
  intros Hl. unfold ljust. rewrite string_length_app, spaces_length. lia.
Qed.

Lemma rjust_length s w :
  (String.length s <= w)%nat -> String.length (rjust s w) = w.
Proof.
  intros Hl. unfold rjust. rewrite string_length_app, spaces_length. lia.
Qed.

Lemma string_of_digits_length ds :
  String.length (string_of_digits ds) = List.length ds.
Proof.
  unfold string_of_digits.
  induction ds as [|d ds IH]; cbn [fold_right String.length List.length];
    [reflexivity | f_equal; exact IH].
Qed.

Lemma digits_le_length fuel :
  forall n k, 0 <= n < 10 ^ Z.of_nat (S k) ->
              (List.length (digits_le fuel n) <= S k)%nat.
Proof.
  induction fuel as [|f IH]; intros n k Hn; cbn [digits_le List.length]; [lia|].
  destruct (Z.ltb_spec n 10) as [Hlt|Hge]; cbn [List.length]; [lia|].
  destruct k as [|k].
  - change (10 ^ Z.of_nat 1) with 10 in Hn. lia.
  - assert (Hq : 0 <= n / 10 < 10 ^ Z.of_nat (S k)).
    { rewrite (Nat2Z.inj_succ (S k)), Z.pow_succ_r in Hn by lia.
      split; [apply Z.div_pos; lia|].
      apply Z.div_lt_upper_bound; lia. }
    specialize (IH _ _ Hq). lia.
Qed.

Lemma str_nat_length n k :
  0 <= n < 10 ^ Z.of_nat (S k) -> (String.length (str_nat n) <= S k)%nat.
Proof.
  intros Hn. unfold str_nat.
  rewrite string_of_digits_length, length_rev.
  apply digits_le_length. assumption.
Qed.

Lemma two_decimals_length h k :
  0 <= h / 100 < 10 ^ Z.of_nat (S k) ->
  (String.length (two_decimals h) <= S k + 3)%nat.
Proof.
  intros Hh. unfold two_decimals. rewrite string_length_app.
  pose proof (@str_nat_length _ _ Hh). cbn [String.length append]. lia.
Qed.

Lemma size_text_length b :
  0 <= b < 2 ^ 53 -> (String.length (size_text b) <= 12)%nat.
Proof.
  intros Hb. unfold size_text.
  destruct (bracket_cases b) as [[Hr _]|[[Hr _]|[[Hr _]|[Hr _]]]].
  - rewrite (format_bytes_B Hr). unfold str_int.
    replace (b <? 0) with false by (symmetry; apply Z.ltb_ge; lia).
    rewrite string_length_app.
    assert (Hn : 0 <= b < 10 ^ Z.of_nat 4)
      by (change (10 ^ Z.of_nat 4) with 10000; unfold KB in Hr; lia).
    pose proof (@str_nat_length _ _ Hn). cbn [String.length]. lia.
  - rewrite (format_bytes_KB Hr). rewrite string_length_app.
    pose proof (@round_half_even_bounds (100 * b) KB eq_refl) as Hq.
    assert (Hd : 0 <= 100 * b / KB < 102400).
    { split; [apply Z.div_pos; unfold KB in *; lia|].
      apply Z.div_lt_upper_bound; unfold KB, MB in *; lia. }
    assert (Hh : 0 <= round_half_even (100 * b) KB / 100 < 10 ^ Z.of_nat 4).
    { change (10 ^ Z.of_nat 4) with 10000.
      split; [apply Z.div_pos; lia|].
      apply Z.div_lt_upper_bound; lia. }
    pose proof (@two_decimals_length _ _ Hh). cbn [String.length]. lia.
  - rewrite (format_bytes_MB Hr). rewrite string_length_app.
    pose proof (@round_half_even_bounds (100 * b) MB eq_refl) as Hq.
    assert (Hd : 0 <= 100 * b / MB < 102400).
    { split; [apply Z.div_pos; unfold MB in *; lia|].
      apply Z.div_lt_upper_bound; unfold MB, GB in *; lia. }
    assert (Hh : 0 <= round_half_even (100 * b) MB / 100 < 10 ^ Z.of_nat 4).
    { change (10 ^ Z.of_nat 4) with 10000.
      split; [apply Z.div_pos; lia|].
      apply Z.div_lt_upper_bound; lia. }
    pose proof (@two_decimals_length _ _ Hh). cbn [String.length]. lia.
  - rewrite (format_bytes_GB Hr).
    assert (Hs : round53 b = b) by (apply round53_small; lia).
    rewrite Hs.
    assert (Hl : Z.log2 b < 53) by (apply Z.log2_lt_pow2; unfold GB in Hr; lia).
    replace (1054 <=? Z.log2 b) with false by (symmetry; apply Z.leb_gt; lia).
    rewrite string_length_app.
    pose proof (@round_half_even_bounds (100 * b) GB eq_refl) as Hq.
    assert (Hd : 0 <= 100 * b / GB < 838860800).
    { split; [apply Z.div_pos; unfold GB in *; lia|].
      apply Z.div_lt_upper_bound; unfold GB in *; lia. }
    assert (Hh : 0 <= round_half_even (100 * b) GB / 100 < 10 ^ Z.of_nat 7).
    { change (10 ^ Z.of_nat 7) with 10000000.
      split; [apply Z.div_pos; lia|].
      apply Z.div_lt_upper_bound; lia. }
    pose proof (@two_decimals_length _ _ Hh). cbn [String.length]. lia.
Qed.

(** X14: the two columns are wide enough.  For each of the seven labels
    of the table and every size up to 2^53 bytes, the category line has
    the same width, so that the sizes end in the same column; padding
    never truncates, and a size text has at most 12 characters there. *)
Theorem category_lines_are_aligned (home : Path) (label : string) (b : Z) :
  In label (map fst (edge_dirs home)) ->
  0 <= b < 2 ^ 53 ->
  String.length (category_line label (size_text b)) = LINE_WIDTH
  /\ (String.length (size_text b) <= 12)%nat.
Proof.
  intros Hin Hb.
  pose proof (@size_text_length b Hb) as Ht.
  split; [|assumption].
  assert (Hl : (String.length (label ++ ":") <= LABEL_WIDTH)%nat).
  { cbn [edge_dirs map fst] in Hin.
    repeat (destruct Hin as [<-|Hin]; [vm_compute; lia|]).
    destruct Hin. }
  unfold category_line, LINE_WIDTH.
  rewrite !string_length_app.
  rewrite (@ljust_length _ _ Hl), rjust_length by (unfold SIZE_WIDTH; lia).
  reflexivity.
Qed.

(* ================================================================== *)
(** * More on the tree host *)

(** X15: on the tree host, the size of a path that is not a directory is
    the size of the regular file the path leads to, links followed, and
    0 when it leads to a special file or nowhere. *)
Theorem get_dir_size_of_non_directory (m : machine) (p : Path) :
  t_is_dir m p = Done false ->
  fst (run_on m (get_dir_size p)) = Ok (link_size m p).
Proof.
  intros Hd. unfold t_is_dir, t_predicate in Hd.
  unfold run_on, link_size, get_dir_size, bind, exists_, is_file, stat_size,
    rglob, ask, ask_os, try_except.
  cbn [h_exists h_is_file h_stat_size h_rglob tree_host].
  unfold t_exists, t_is_file, t_stat_size, t_rglob, t_predicate.
  destruct (t_stat m p) as [[|nd up]|e] eqn:Es.
  - reflexivity.
  - destruct nd as [n|a es|t|]; [reflexivity | discriminate | |];
      destruct (m_lenient m); reflexivity.
  - destruct (m_lenient m || ignored_errno e); [reflexivity | discriminate].
Qed.

(** X16: with the predicates of Python 3.14, which answer [False] where
    those of earlier versions raise, [get_dir_size] returns a size for
    every path of every tree. *)
Theorem get_dir_size_returns_when_lenient (m : machine) (p : Path) :
  m_lenient m = true ->
  exists n, fst (run_on m (get_dir_size p)) = Ok n.
Proof.
  intros Hl.
  assert (He : exists ex, t_exists m p = Done ex).
  { unfold t_exists, t_predicate. rewrite Hl.
    destruct (t_stat m p) as [[|nd up]|e]; eexists; reflexivity. }
  assert (Hf : exists f, t_is_file m p = Done f).
  { unfold t_is_file, t_predicate. rewrite Hl.
    destruct (t_stat m p) as [[|nd up]|e]; eexists; reflexivity. }
  destruct He as [ex He], Hf as [f Hf].
  destruct (@get_dir_size_after_checks (tree_host m) p tt tt ex) as
    (n & s' & l & E & _).
  - cbn [h_exists tree_host]. rewrite He. reflexivity.
  - intros _. exists f, tt. cbn [h_is_file tree_host]. rewrite Hf. reflexivity.
  - exists n. unfold run_on. rewrite E. reflexivity.
Qed.

(* ================================================================== *)
(** * More runs on sample machines *)

Open Scope string_scope.

Lemma get_dir_size_of_regular_file_witness :
  @get_dir_size (tree_host sample) (path_of_string "/tmp/big") tt
  = (Ok 5000, tt,
     [Called (c_exists (path_of_string "/tmp/big"));
      Called (c_is_file (path_of_string "/tmp/big"));
      Called (c_stat (path_of_string "/tmp/big"))]).
Proof.
  apply (@get_dir_size_of_regular_file (tree_host sample)
           (path_of_string "/tmp/big") tt tt tt tt (Done 5000));
    reflexivity.
Defined.

(** The link stops the walk: of the 300 bytes of the two files, 100 are
    counted. *)
Lemma walk_ends_at_failing_check_witness :
  @get_dir_size (tree_host sample_closed_link) (path_of_string "/data") tt
  = (Ok 100, tt,
     [Called (c_exists (path_of_string "/data"));
      Called (c_is_file (path_of_string "/data"));
      Called (c_rglob (path_of_string "/data"));
      Called (c_is_file (path_of_string "/data/a"));
      Called (c_stat (path_of_string "/data/a"));
      Called (c_is_file (path_of_string "/data/link"))])
  /\ regular_size data_dir = 300.
Proof.
  split; [|reflexivity].
  apply (@walk_ends_at_failing_check (tree_host sample_closed_link)
           (path_of_string "/data") (path_of_string "/data/link")
           [path_of_string "/data/a"] [path_of_string "/data/b"] None
           tt tt tt tt tt tt 100
           [Called (c_is_file (path_of_string "/data/a"));
            Called (c_stat (path_of_string "/data/a"))]
           EACCES);
    reflexivity.
Defined.

Lemma get_dir_size_raises_only_from_its_checks_witness :
  exists en,
    OSError EACCES = OSError en
    /\ (@h_exists (tree_host sample)
          (path_of_string "/Users/bob/Library/Caches/Microsoft Edge") tt
        = (Failed en, tt)
        \/ exists s1,
             @h_exists (tree_host sample)
               (path_of_string "/Users/bob/Library/Caches/Microsoft Edge") tt
             = (Done true, s1)
             /\ @h_is_file (tree_host sample)
                  (path_of_string "/Users/bob/Library/Caches/Microsoft Edge") s1
                = (Failed en, tt)).
Proof.
  apply (@get_dir_size_raises_only_from_its_checks (tree_host sample)
           (path_of_string "/Users/bob/Library/Caches/Microsoft Edge") tt tt
           (Raise (OSError EACCES))
           [Called (c_exists
                      (path_of_string "/Users/bob/Library/Caches/Microsoft Edge"))]).
  reflexivity.
Defined.

(** The first answer names no directory and is passed over; the second
    one is used, without the blanks around it. *)
Lemma query_answer_is_used_witness :
  @get_home_directory (tree_host sample_two_answers) "gina" tt
  = (Ok (Some (path_of_string "/Volumes/carol")), tt,
     [Called c_getuser;
      Called (c_exists (path_of_string "/Users/gina"));
      Called (c_run (dscl_argv "gina"));
      Called (c_exists (path_of_string "/Volumes/gone"));
      Called (c_exists (path_of_string "/Volumes/carol"));
      Called (c_is_dir (path_of_string "/Volumes/carol"))]).
Proof.
  apply (@query_answer_is_used (tree_host sample_two_answers) "gina" "alice"
           tt tt tt tt tt tt tt
           [Called (c_exists (path_of_string "/Users/gina"))]
           [Called (c_exists (path_of_string "/Volumes/gone"))]
           (mkCompleted 0 ("NFSHomeDirectory: /Volumes/gone" ++ LF
                           ++ "NFSHomeDirectory:   /Volumes/carol  " ++ LF))
           ["NFSHomeDirectory: /Volumes/gone"] []
           "NFSHomeDirectory:   /Volumes/carol  " "   /Volumes/carol  ");
    try reflexivity.
  - discriminate.
  - apply (@po_no_directory (tree_host sample_two_answers)
             "NFSHomeDirectory: /Volumes/gone" " /Volumes/gone" [] tt tt tt
             [Called (c_exists (path_of_string "/Volumes/gone"))] []);
      [reflexivity | reflexivity | apply po_nil].
Defined.

(** For a name of 300 bytes the check of [/Users/<name>] raises; for
    alice without a home directory to be found, [Path.home()] does. *)
Lemma resolver_raises_only_before_the_try_witness :
  (exists cu s1 l2,
      @h_getuser (tree_host sample) tt = (Ok cu, s1)
      /\ is_OSError (OSError ENAMETOOLONG) = true
      /\ @dir_check (tree_host sample)
           (path_of_string ("/Users/" ++ long_name)) s1
         = (Raise (OSError ENAMETOOLONG), tt, l2))
  /\ exists s1,
       @h_getuser (tree_host sample_no_home) tt = (Ok "alice", s1)
       /\ @h_home (tree_host sample_no_home) s1 = (Raise RuntimeError, tt).
Proof.
  split.
  - destruct (@resolver_raises_only_before_the_try (tree_host sample) long_name
                tt tt (OSError ENAMETOOLONG)
                [Called c_getuser;
                 Called (c_exists (path_of_string ("/Users/" ++ long_name)))]
                eq_refl eq_refl)
      as [Q|[(s1 & Q & _)|(cu & s1 & l2 & Hu & _ & Ho & Hc)]].
    + discriminate Q.
    + discriminate Q.
    + exists cu, s1, l2. split; [exact Hu|]. split; [exact Ho | exact Hc].
  - destruct (@resolver_raises_only_before_the_try (tree_host sample_no_home)
                "alice" tt tt RuntimeError [Called c_getuser; Called c_home]
                eq_refl eq_refl)
      as [Q|[(s1 & Hu & Hh)|(cu & s1 & l2 & _ & _ & Ho & _)]].
    + discriminate Q.
    + exists s1. split; [exact Hu | exact Hh].
    + discriminate Ho.
Defined.

Lemma carol_sizes_seen :
  @sizes_seen (tree_host sample)
    (edge_dirs (path_of_string "/Volumes/carol")) tt
    [("Caches", 2560); ("Preferences", 500)] tt.
Proof.
  eapply ss_absent; [reflexivity|].
  eapply ss_present; [reflexivity | reflexivity |].
  eapply ss_absent; [reflexivity|].
  eapply ss_absent; [reflexivity|].
  eapply ss_present; [reflexivity | reflexivity |].
  eapply ss_absent; [reflexivity|].
  eapply ss_absent; [reflexivity|].
  apply ss_nil.
Defined.

Lemma report_lists_positive_sizes_witness :
  exists l,
    @calculate_edge_storage (tree_host sample) "carol" tt = (Ok true, tt, l)
    /\ printed l
       = (section_head "carol"
          ++ [category_line "Caches" "2.50KB";
              category_line "Preferences" "500B"]
          ++ section_total "2.99KB")%list.
Proof.
  apply (@report_lists_positive_sizes (tree_host sample) "carol"
           (path_of_string "/Volumes/carol") tt tt tt
           [Called c_getuser;
            Called (c_exists (path_of_string "/Users/carol"));
            Called (c_run (dscl_argv "carol"));
            Called (c_exists (path_of_string "/Volumes/carol"));
            Called (c_is_dir (path_of_string "/Volumes/carol"))]
           [("Caches", 2560); ("Preferences", 500)]);
    [reflexivity | exact carol_sizes_seen | reflexivity].
Defined.

Lemma report_result_matches_output_witness :
  printed (snd (@calculate_edge_storage (tree_host sample) "dave" tt))
  = [not_found_line "dave"]
  /\ exists rest,
       printed (snd (@calculate_edge_storage (tree_host sample) "carol" tt))
       = (section_head "carol" ++ rest)%list.
Proof.
  split.
  - eassert (E : @calculate_edge_storage (tree_host sample) "dave" tt
                 = (Ok false, tt, _)) by (vm_compute; reflexivity).
    rewrite E.
    exact (@report_result_matches_output (tree_host sample) "dave" tt tt
             false _ E).
  - eassert (E : @calculate_edge_storage (tree_host sample) "carol" tt
                 = (Ok true, tt, _)) by (vm_compute; reflexivity).
    rewrite E.
    exact (@report_result_matches_output (tree_host sample) "carol" tt tt
             true _ E).
Defined.

Lemma dave_and_carol_reported :
  exists l,
    @reported (tree_host sample) ["dave"; "carol"] tt tt l
    /\ printed l
       = ([not_found_line "dave"]
          ++ section_head "carol"
          ++ [category_line "Caches" "2.50KB";
              category_line "Preferences" "500B"]
          ++ section_total "2.99KB")%list.
Proof.
  eexists. split.
  - eapply rp_cons; [vm_compute; reflexivity|].
    eapply rp_cons; [vm_compute; reflexivity|].
    apply rp_nil.
  - vm_compute. reflexivity.
Defined.

(** dave is not found, which neither ends the run nor shows in the exit
    status; carol's report follows. *)
Lemma main_reports_users_in_turn_witness :
  exists l,
    @main (tree_host sample) ["edge-storage-usage.py"; "dave"; "carol"] tt
    = (Ok tt, tt, Called c_system :: map Printed banner ++ l ++ [Printed ""])%list
    /\ exit_status
         (fst (fst (@main (tree_host sample)
                      ["edge-storage-usage.py"; "dave"; "carol"] tt))) = 0
    /\ printed l
       = ([not_found_line "dave"]
          ++ section_head "carol"
          ++ [category_line "Caches" "2.50KB";
              category_line "Preferences" "500B"]
          ++ section_total "2.99KB")%list.
Proof.
  destruct dave_and_carol_reported as (l & Hr & P).
  exists l.
  destruct (@main_reports_users_in_turn (tree_host sample)
              "edge-storage-usage.py" ["dave"; "carol"] tt tt tt l
              eq_refl ltac:(discriminate) Hr) as [E X].
  split; [exact E|]. split; [exact X | exact P].
Defined.

(** The name of 300 bytes ends the run after carol's report: alice is
    not reported on. *)
Lemma main_has_no_handler_witness :
  exists l l3,
    @main (tree_host sample)
      ["edge-storage-usage.py"; "carol"; long_name; "alice"] tt
    = (Raise (OSError ENAMETOOLONG), tt,
       Called c_system :: map Printed banner ++ l ++ l3)%list
    /\ exit_status
         (fst (fst (@main (tree_host sample)
                      ["edge-storage-usage.py"; "carol"; long_name; "alice"] tt)))
       = 1
    /\ printed (l ++ l3)
       = (section_head "carol"
          ++ [category_line "Caches" "2.50KB";
              category_line "Preferences" "500B"]
          ++ section_total "2.99KB")%list.
Proof.
  eassert (Hr : @reported (tree_host sample) ["carol"] tt tt _)
    by (eapply rp_cons; [vm_compute; reflexivity | apply rp_nil]).
  eassert (Hc : @calculate_edge_storage (tree_host sample) long_name tt
                = (Raise (OSError ENAMETOOLONG), tt, _))
    by (vm_compute; reflexivity).
  destruct (@main_has_no_handler (tree_host sample) "edge-storage-usage.py"
              long_name ["carol"] ["alice"] tt tt tt tt _ _
              (OSError ENAMETOOLONG) eq_refl Hr Hc) as [E X].
  eexists _, _. split; [exact E|]. split; [exact (X eq_refl)|].
  vm_compute. reflexivity.
Defined.

Lemma main_refuses_other_systems_witness :
  @main (tree_host sample_linux) ["edge-storage-usage.py"; "alice"] tt
  = (Raise (SystemExit 1), tt,
     [Called c_system;
      Printed (RED ++ "Error: This script is designed for macOS only" ++ NC)])
  /\ exit_status
       (fst (fst (@main (tree_host sample_linux)
                    ["edge-storage-usage.py"; "alice"] tt))) = 1.
Proof.
  apply (@main_refuses_other_systems (tree_host sample_linux)
           ["edge-storage-usage.py"; "alice"] tt).
  discriminate.
Defined.

Lemma main_defaults_to_current_user_witness :
  exists l,
    @main (tree_host sample) ["edge-storage-usage.py"] tt
    = (Ok tt, tt,
       Called c_system :: map Printed banner
       ++ Called c_getuser :: l ++ [Printed ""])%list
    /\ printed l = (section_head "alice" ++ section_total "0B")%list.
Proof.
  eassert (Hc : @calculate_edge_storage (tree_host sample) "alice" tt
                = (Ok true, tt, _)) by (vm_compute; reflexivity).
  eexists. split.
  - exact (@main_defaults_to_current_user (tree_host sample)
             ["edge-storage-usage.py"] "alice" tt tt tt tt true _
             eq_refl (le_n 1) eq_refl Hc).
  - vm_compute. reflexivity.
Defined.

(** 1234567 bytes are 1.17737... MB, written 1.18MB. *)
Lemma format_bytes_is_nearest_hundredth_witness :
  format_bytes 1234567 = Ok "1.18MB"
  /\ exists rd,
       shown 1234567 = Some rd
       /\ 2 * Z.abs (10 ^ Z.of_nat (r_places rd) * 1234567
                     - unit_of 1234567 * r_number rd)
          <= unit_of 1234567.
Proof.
  split; [reflexivity|].
  apply (@format_bytes_is_nearest_hundredth 1234567).
  split; [lia | reflexivity].
Defined.

Lemma category_lines_are_aligned_witness :
  String.length (category_line "Caches" (size_text 2560)) = LINE_WIDTH
  /\ (String.length (size_text 2560) <= 12)%nat.
Proof.
  apply (@category_lines_are_aligned (path_of_string "/Volumes/carol")
           "Caches" 2560).
  - right. left. reflexivity.
  - split; [lia | reflexivity].
Defined.

(** A link to a regular file, given as the path itself, counts with the
    size of the file. *)
Lemma get_dir_size_of_non_directory_witness :
  fst (run_on sample (get_dir_size (path_of_string "/tmp/links/to_big")))
  = Ok 5000.
Proof.
  apply (@get_dir_size_of_non_directory sample
           (path_of_string "/tmp/links/to_big")).
  reflexivity.
Defined.

Lemma get_dir_size_returns_when_lenient_witness :
  exists n,
    fst (run_on sample_lenient
           (get_dir_size
              (path_of_string "/Users/bob/Library/Caches/Microsoft Edge")))
    = Ok n.
Proof.
  apply (@get_dir_size_returns_when_lenient sample_lenient
           (path_of_string "/Users/bob/Library/Caches/Microsoft Edge")).
  reflexivity.
Defined.

Close Scope string_scope.
